(** * A shallow embedding of the geometric-algebra layers and training loops
    of pointr-ga ([models/ga_models/MVFormer.py], [models/ga_models/GPD.py],
    [tools/training.py], [tools/ga_training.py]).

    Tensors are modelled as a shape together with a total read function on
    index lists; only reads at in-bound indices are meaningful.  Element
    values are real numbers: the float32 / float16 arithmetic of torch is
    idealised as exact real arithmetic, and the dtype casts ([.half()],
    [.float()]) are kept as explicit maps so that they stay visible.
    Operations that raise in Python return [None]. *)

From Stdlib Require Import List Arith Bool Lia Reals Lra.
Import ListNotations.

Local Open Scope nat_scope.

(** ** Option monad (Python exceptions) *)

Definition obind {A B : Type} (m : option A) (k : A -> option B) : option B :=
  match m with Some a => k a | None => None end.

Notation "'let?' x := m 'in' k" := (obind m (fun x => k))
  (at level 200, x name, m at level 200, k at level 200).

(** ** Finite sums *)

Fixpoint sumR (n : nat) (f : nat -> R) : R :=
  match n with
  | 0 => 0%R
  | S m => (sumR m f + f m)%R
  end.

(** The sum and the arithmetic mean of a list of values. *)
Definition sumL (xs : list R) : R := fold_right Rplus 0%R xs.

Definition mean (xs : list R) : R := (sumL xs / INR (length xs))%R.

Definition prod_list (l : list nat) : nat := fold_right Nat.mul 1 l.

(** ** Tensors *)

Record tensor := mk_tensor { shape : list nat; get : list nat -> R }.

(** An index is in bounds for a shape. *)
Definition in_bounds (idx s : list nat) : Prop := Forall2 lt idx s.

(** torch broadcasting of two shapes, computed on the reversed shapes
    (trailing axes are aligned). *)
Fixpoint bcast_rev (xs ys : list nat) : option (list nat) :=
  match xs, ys with
  | [], _ => Some ys
  | _, [] => Some xs
  | x :: xs', y :: ys' =>
      match bcast_rev xs' ys' with
      | None => None
      | Some r =>
          if Nat.eqb x y then Some (x :: r)
          else if Nat.eqb x 1 then Some (y :: r)
          else if Nat.eqb y 1 then Some (x :: r)
          else None
      end
  end.

Definition broadcast_shapes (s1 s2 : list nat) : option (list nat) :=
  option_map (@rev nat) (bcast_rev (rev s1) (rev s2)).

(** The index read in an operand of shape [s] for an index [idx] of the
    broadcast result: leading axes are dropped, size-1 axes read 0. *)
Definition bcast_index (s idx : list nat) : list nat :=
  map (fun p => if Nat.eqb (fst p) 1 then 0 else snd p)
      (combine s (skipn (length idx - length s) idx)).

(** Elementwise binary operator with broadcasting ([a * b], [a / b]). *)
Definition zip_with (f : R -> R -> R) (t1 t2 : tensor) : option tensor :=
  match broadcast_shapes (shape t1) (shape t2) with
  | Some sh =>
      Some (mk_tensor sh (fun idx =>
              f (get t1 (bcast_index (shape t1) idx))
                (get t2 (bcast_index (shape t2) idx))))
  | None => None
  end.

(** Elementwise unary operator ([x - 1], [x + 1], [torch.sigmoid], casts). *)
Definition tmap (f : R -> R) (t : tensor) : tensor :=
  mk_tensor (shape t) (fun idx => f (get t idx)).

Fixpoint insert_at {A : Type} (n : nat) (x : A) (l : list A) : list A :=
  match n, l with
  | 0, _ => x :: l
  | S _, [] => [x]
  | S n', y :: l' => y :: insert_at n' x l'
  end.

Definition remove_at {A : Type} (n : nat) (l : list A) : list A :=
  firstn n l ++ skipn (S n) l.

(** [t.unsqueeze(d)]. *)
Definition unsqueeze (d : nat) (t : tensor) : option tensor :=
  if d <=? length (shape t)
  then Some (mk_tensor (insert_at d 1 (shape t)) (fun idx => get t (remove_at d idx)))
  else None.

(** [t.squeeze(-1)]: drops a trailing axis of size 1, otherwise a no-op. *)
Definition squeeze_last (t : tensor) : tensor :=
  match rev (shape t) with
  | 1 :: r => mk_tensor (rev r) (fun idx => get t (idx ++ [0]))
  | _ => t
  end.

(** [t[:n, :]] on a tensor of rank at least 1. *)
Definition slice_rows (n : nat) (t : tensor) : tensor :=
  match shape t with
  | d0 :: rest => mk_tensor (Nat.min n d0 :: rest) (get t)
  | [] => t
  end.

(** The block of [reps] that position [c] falls in. *)
Fixpoint owner (reps : list nat) (c : nat) : nat :=
  match reps with
  | [] => 0
  | r :: rs => if c <? r then 0 else S (owner rs (c - r))
  end.

(** [t.repeat_interleave(reps, dim=-1)]. *)
Definition repeat_interleave_last (reps : list nat) (t : tensor) : option tensor :=
  match rev (shape t) with
  | k :: r =>
      if Nat.eqb k (length reps)
      then Some (mk_tensor (rev r ++ [list_sum reps])
                  (fun idx => get t (removelast idx ++ [owner reps (last idx 0)])))
      else None
  | [] => None
  end.

(** Row-major offset of an index and its inverse. *)
Fixpoint ravel (s idx : list nat) : nat :=
  match s, idx with
  | d :: s', i :: idx' => i * prod_list s' + ravel s' idx'
  | _, _ => 0
  end.

Fixpoint unravel (s : list nat) (off : nat) : list nat :=
  match s with
  | [] => []
  | d :: s' => (off / prod_list s') :: unravel s' (off mod prod_list s')
  end.

(** [t.reshape(new)] once the new shape is fixed (same number of elements). *)
Definition reshape_to (t : tensor) (new : list nat) : tensor :=
  mk_tensor new (fun idx => get t (unravel (shape t) (ravel new idx))).

(** [h.reshape(h.size(0), -1)]. *)
Definition flatten_batch (t : tensor) : option tensor :=
  match shape t with
  | b :: rest =>
      if Nat.eqb b 0 then None else Some (reshape_to t [b; prod_list rest])
  | [] => None
  end.

(** [x.reshape(-1, a, b)]. *)
Definition reshape_m1 (t : tensor) (a b : nat) : option tensor :=
  let n := prod_list (shape t) in
  if Nat.eqb (a * b) 0 then None
  else if Nat.eqb (n mod (a * b)) 0 then Some (reshape_to t [n / (a * b); a; b])
  else None.

(** ** The Clifford algebra *)

(** Modelled from the spec: [clifford_lib.algebra.cliffordalgebra.CliffordAlgebra]
    (not part of the sources). The spec's "algebra engine" provides the grade
    decomposition (blades ordered by grade, [subspaces] holding the number of
    blades of each grade), the Cayley tensor, per-grade norms and the
    embedding of coordinate vectors. The Cayley tensor and the norm of a grade
    component (given the grade and the component's coefficients) are kept as
    data of the algebra. *)
Record algebra := mk_algebra {
  alg_dim : nat;
  cayley : tensor;
  grade_norm : nat -> list R -> R
}.

Fixpoint binom (n k : nat) : nat :=
  match n, k with
  | _, 0 => 1
  | 0, S _ => 0
  | S n', S k' => binom n' k' + binom n' (S k')
  end.

(** [algebra.subspaces]: the number of blades of grade 0 .. dim. *)
Definition subspaces (alg : algebra) : list nat :=
  map (binom (alg_dim alg)) (seq 0 (S (alg_dim alg))).

(** [algebra.n_subspaces]. *)
Definition n_subspaces (alg : algebra) : nat := S (alg_dim alg).

(** [2 ** algebra.dim]: the number of blades of a multivector. *)
Definition mv_dim (alg : algebra) : nat := 2 ^ alg_dim alg.

(** First blade of grade [k]. *)
Definition grade_start (alg : algebra) (k : nat) : nat :=
  list_sum (firstn k (subspaces alg)).

(** The grade of blade [c]. *)
Definition grade_of (alg : algebra) (c : nat) : nat := owner (subspaces alg) c.

(** The coefficients [mv[..., grade_to_slice[k]]] of the grade-[k] part of the
    multivector at the leading index [pre] of [t] (python slicing keeps only
    the positions below the axis size [d]). *)
Definition grade_part (alg : algebra) (t : tensor) (d : nat) (pre : list nat) (k : nat)
  : list R :=
  map (fun c => get t (pre ++ [c]))
      (filter (fun c => c <? d) (seq (grade_start alg k) (binom (alg_dim alg) k))).

(** [torch.cat(algebra.norms(t), dim=-1)]: one norm per grade, last axis of
    size [n_subspaces]. *)
Definition algebra_norms (alg : algebra) (t : tensor) : option tensor :=
  match shape t with
  | [] => None
  | sh =>
      Some (mk_tensor (removelast sh ++ [n_subspaces alg])
              (fun idx => grade_norm alg (last idx 0)
                            (grade_part alg t (last sh 0) (removelast idx) (last idx 0))))
  end.

(** [algebra.embed_grade(t, k)]: a zero multivector whose grade-[k] slice is
    filled with the last axis of [t] (which must have the slice's size, or 1). *)
Definition embed_grade (alg : algebra) (t : tensor) (k : nat) : option tensor :=
  match shape t with
  | [] => None
  | sh =>
      let m := last sh 0 in
      let len := binom (alg_dim alg) k in
      let st := grade_start alg k in
      if Nat.eqb m len || Nat.eqb m 1 then
        Some (mk_tensor (removelast sh ++ [mv_dim alg])
                (fun idx =>
                   let c := last idx 0 in
                   if (st <=? c) && (c <? st + len)
                   then get t (removelast idx ++ [if Nat.eqb m 1 then 0 else c - st])
                   else 0%R))
      else None
  end.

(** ** Layers of torch.nn used by the models *)

(** [torch.sigmoid]. *)
Definition sigmoid (x : R) : R := (/ (1 + exp (- x)))%R.

(** The [1e-6] added to the divisor of [NormalizationLayer]. *)
Definition norm_eps : R := (/ 1000000)%R.

(** [nn.Linear(lin_in, lin_out)] with weight [lin_w[o; i]] and bias [lin_b[o]]. *)
Record linear := mk_linear {
  lin_in : nat;
  lin_out : nat;
  lin_w : list nat -> R;
  lin_b : list nat -> R
}.

Definition linear_forward (l : linear) (t : tensor) : option tensor :=
  match rev (shape t) with
  | i :: rs =>
      if Nat.eqb i (lin_in l)
      then Some (mk_tensor (rev rs ++ [lin_out l])
                  (fun idx =>
                     (sumR (lin_in l) (fun j => get t (removelast idx ++ [j]) * lin_w l [last idx 0%nat; j])
                      + lin_b l [last idx 0%nat])%R))
      else None
  | [] => None
  end.

(** Modelled from the spec: [clifford_modules.MVLinear.MVLinear] (not part of
    the sources), the spec's "learnable linear map that acts independently per
    algebra subspace": weight [w[n; m; k]] for output feature [n], input
    feature [m] and grade [k], expanded per blade
    ([einsum("bm...i, nmi->bn...i")]), so axis 1 of the input is contracted
    and must have [mv_in] entries; the bias [b[n]] goes to the scalar blade. *)
Record mvlinear := mk_mvlinear {
  mv_in : nat;
  mv_out : nat;
  mv_w : list nat -> R;
  mv_b : list nat -> R
}.

Definition mvlinear_forward (alg : algebra) (l : mvlinear) (t : tensor) : option tensor :=
  match shape t with
  | b :: m :: rest =>
      if Nat.eqb m (mv_in l) && negb (Nat.eqb (length rest) 0)
         && Nat.eqb (last rest 0) (mv_dim alg)
      then Some (mk_tensor (b :: mv_out l :: rest)
                  (fun idx =>
                     let i := last idx 0 in
                     match idx with
                     | bi :: n :: mid =>
                         (sumR m (fun j => get t (bi :: j :: mid)
                                             * mv_w l [n; j; grade_of alg i])
                          + (if Nat.eqb i 0%nat then mv_b l [n] else 0))%R
                     | _ => 0%R
                     end))
      else None
  | _ => None
  end.

(** ** [MVFormer.py] *)

(** [max_seq] of [NormalizationLayer.__init__]. *)
Definition max_seq : nat := 3000.

(** [NormalizationLayer]: the parameter [a] has shape [(max_seq, n_subspaces)]. *)
Record norm_layer := mk_norm_layer {
  nl_algebra : algebra;
  nl_in_features : nat;
  nl_a : tensor
}.

Definition norm_init (alg : algebra) (features : nat) (a : list nat -> R) : norm_layer :=
  mk_norm_layer alg features (mk_tensor [max_seq; n_subspaces alg] a).

(** [NormalizationLayer(algebra, features, init)] before any training step:
    [a = torch.zeros(max_seq, algebra.n_subspaces) + init]. *)
Definition norm_layer_init (alg : algebra) (features : nat) (init : R) : norm_layer :=
  norm_init alg features (fun _ => init).

(** [NormalizationLayer.forward]. *)
Definition norm_forward (l : norm_layer) (input : tensor) : option tensor :=
  let alg := nl_algebra l in
  match nth_error (shape input) 2 with
  | None => None
  | Some f =>
      if negb (Nat.eqb f (nl_in_features l)) then None
      else
        let? norms := algebra_norms alg input in
        let s_a := tmap sigmoid (nl_a l) in
        let? p := zip_with Rmult (slice_rows (nth 1 (shape input) 0) s_a)
                                 (tmap (fun n => n - 1)%R norms) in
        let norms := tmap (fun x => x + 1)%R p in
        let? norms := repeat_interleave_last (subspaces alg) norms in
        zip_with Rdiv input (tmap (fun x => x + norm_eps)%R norms)
  end.

(** Modelled from the spec: [utils.ga_utils.fast_einsum] (not part of the
    sources), the contraction through the Cayley tensor that the commented
    reference line of [FullyConnectedSteerableGeometricProductLayer.forward]
    spells out: [torch.einsum("...i,ijk,...k->...j", x, cayley, y)], the
    leading axes of [x] and [y] being broadcast. *)
Definition fast_einsum (x c y : tensor) : option tensor :=
  match rev (shape x), shape c, rev (shape y) with
  | dl :: xs, [d1; m; d2], dn :: ys =>
      if Nat.eqb dl d1 && Nat.eqb dn d2 then
        match broadcast_shapes (rev xs) (rev ys) with
        | Some bs =>
            Some (mk_tensor (bs ++ [m])
                    (fun idx =>
                       let bi := removelast idx in
                       let j := last idx 0 in
                       sumR d1 (fun l => sumR d2 (fun n =>
                         (get x (bcast_index (rev xs) bi ++ [l]) * get c [l; j; n]
                          * get y (bcast_index (rev ys) bi ++ [n]))%R))))
        | None => None
        end
      else None
  | _, _, _ => None
  end.

(** [.contiguous()]: a memory-layout change, the values are unchanged. *)
Definition contiguous (t : tensor) : tensor := t.

(** [FullyConnectedSteerableGeometricProductLayer]: its submodules as
    functions. *)
Record fc_layer := mk_fc_layer {
  fc_algebra : algebra;
  fc_features : nat;
  q_prj : tensor -> option tensor;
  k_prj : tensor -> option tensor;
  normalization : tensor -> option tensor
}.

(** [FullyConnectedSteerableGeometricProductLayer.__init__]. *)
Definition fc_init (alg : algebra) (features : nat)
    (wq bq wk bk a : list nat -> R) : fc_layer :=
  {| fc_algebra := alg;
     fc_features := features;
     normalization := norm_forward (norm_init alg features a);
     q_prj := mvlinear_forward alg (mk_mvlinear 2048 2048 wq bq);
     k_prj := mvlinear_forward alg (mk_mvlinear 2048 2048 wk bk) |}.

(** [FullyConnectedSteerableGeometricProductLayer.forward]; [half] is the
    rounding of [.half()]; the [autocast] region changes no value here. *)
Definition fc_forward (half : R -> R) (l : fc_layer) (input : tensor) : option tensor :=
  match shape input with
  | [_; _; _] =>
      let? q := q_prj l input in
      let? k := k_prj l input in
      let? q := normalization l q in
      let? k := normalization l k in
      let cay := cayley (fc_algebra l) in
      let? q_einsum := unsqueeze 2 q in
      let? k_einsum := unsqueeze 1 k in
      let q_einsum := contiguous q_einsum in
      let k_einsum := contiguous k_einsum in
      let cay := contiguous cay in
      let q_einsum := tmap half q_einsum in
      let k_einsum := tmap half k_einsum in
      let cay := tmap half cay in
      fast_einsum q_einsum cay k_einsum
  | _ => None
  end.

(** *** Data types, memory layout and the [autocast] region *)

(** The [torch.dtype] of a tensor: the layers run in [float32], [.half()]
    converts to [float16]. *)
Inductive dtype := Float32 | Float16.

(** A tensor with its dtype and whether its storage is contiguous. *)
Record ttensor := mk_ttensor {
  tval : tensor;
  tdtype : dtype;
  tcontig : bool
}.

(** A submodule ([MVLinear], [NormalizationLayer]) on tagged tensors: the
    dtype and layout of its output are the given [tag] of the output. *)
Definition tt_module (f : tensor -> option tensor) (tag : tensor -> dtype * bool)
    (t : ttensor) : option ttensor :=
  let? v := f (tval t) in Some (mk_ttensor v (fst (tag v)) (snd (tag v))).

(** [.unsqueeze(d)]: a view with the same dtype; inserting an axis of size 1
    keeps the tensor contiguous or not. *)
Definition tt_unsqueeze (d : nat) (t : ttensor) : option ttensor :=
  let? v := unsqueeze d (tval t) in Some (mk_ttensor v (tdtype t) (tcontig t)).

(** [.contiguous()]: same values and dtype, contiguous storage. *)
Definition tt_contiguous (t : ttensor) : ttensor :=
  mk_ttensor (contiguous (tval t)) (tdtype t) true.

(** [.half()], that is [.to(torch.float16)] with [memory_format =
    torch.preserve_format]: each value rounded by [half], dtype [float16],
    the layout kept. *)
Definition tt_half (half : R -> R) (t : ttensor) : ttensor :=
  mk_ttensor (tmap half (tval t)) Float16 (tcontig t).

(** A call of [fast_einsum]: the dtype and contiguity of its three operands,
    in order, and whether it runs with [autocast] enabled. *)
Record einsum_call := mk_einsum_call {
  ec_operands : list (dtype * bool);
  ec_autocast : bool
}.

(** [fast_einsum(x, cayley, y)] run in a context whose [autocast] flag is
    [autocast]: its output and the record of the call. *)
Definition fast_einsum_tagged (autocast : bool) (x c y : ttensor)
  : option (ttensor * einsum_call) :=
  let? o := fast_einsum (tval x) (tval c) (tval y) in
  Some (mk_ttensor o Float16 true,
        mk_einsum_call [(tdtype x, tcontig x); (tdtype c, tcontig c); (tdtype y, tcontig y)]
          autocast).

(** [with torch.amp.autocast('cuda'): body]: the body runs with the
    [autocast] flag set. *)
Definition autocast_region {A : Type} (body : bool -> A) : A := body true.

(** [FullyConnectedSteerableGeometricProductLayer.forward] on tagged
    tensors: [tag] gives the dtype and layout of the submodules' outputs and
    [cay_tag] those of [self.algebra.cayley.to(input.device)]. *)
Definition fc_forward_tagged (half : R -> R) (l : fc_layer) (tag : tensor -> dtype * bool)
    (cay_tag : dtype * bool) (input : ttensor) : option (ttensor * einsum_call) :=
  match shape (tval input) with
  | [_; _; _] =>
      let? q := tt_module (q_prj l) tag input in
      let? k := tt_module (k_prj l) tag input in
      let? q := tt_module (normalization l) tag q in
      let? k := tt_module (normalization l) tag k in
      let cay := mk_ttensor (cayley (fc_algebra l)) (fst cay_tag) (snd cay_tag) in
      let? q_einsum := tt_unsqueeze 2 q in
      let? k_einsum := tt_unsqueeze 1 k in
      let q_einsum := tt_contiguous q_einsum in
      let k_einsum := tt_contiguous k_einsum in
      let cay := tt_contiguous cay in
      let q_einsum := tt_half half q_einsum in
      let k_einsum := tt_half half k_einsum in
      let cay := tt_half half cay in
      autocast_region (fun ac => fast_einsum_tagged ac q_einsum cay k_einsum)
  | _ => None
  end.

(** [GeometricProductAttention.forward]; [.float()] is the identity on the
    real-valued model. *)
Definition gpa_forward (half : R -> R) (gp_layer : fc_layer) (att_prj : linear)
    (x : tensor) : option tensor :=
  let? new_mv := fc_forward half gp_layer x in
  linear_forward att_prj new_mv.

(** [torch.softmax(t, dim=-1)]. *)
Definition softmax_last (t : tensor) : tensor :=
  mk_tensor (shape t) (fun idx =>
    (exp (get t idx)
     / sumR (last (shape t) 0%nat) (fun k => exp (get t (removelast idx ++ [k]))))%R).

(** [torch.einsum("bqk,bvd->bqd", p, v)]. *)
Definition einsum_bqk_bvd (p v : tensor) : option tensor :=
  match shape p, shape v with
  | [b1; nq; nk], [b2; nv; nd] =>
      match broadcast_shapes [b1] [b2] with
      | Some [b] =>
          Some (mk_tensor [b; nq; nd] (fun idx =>
            match idx with
            | [bi; qi; di] =>
                sumR nk (fun ki => sumR nv (fun vi =>
                  (get p (bcast_index [b1] [bi] ++ [qi; ki])
                   * get v (bcast_index [b2] [bi] ++ [vi; di]))%R))
            | _ => 0%R
            end))
      | _ => None
      end
  | _, _ => None
  end.

(** [SelfAttentionGA]: [v_proj] and the attention module. *)
Record sa_layer := mk_sa_layer {
  sa_algebra : algebra;
  v_proj : linear;
  ga_attention : tensor -> option tensor
}.

(** [SelfAttentionGA.__init__]. *)
Definition sa_init (half : R -> R) (alg : algebra) (embed_dim : nat)
    (wv bv wq bq wk bk a watt batt : list nat -> R) : sa_layer :=
  {| sa_algebra := alg;
     v_proj := mk_linear (mv_dim alg) 112 wv bv;
     ga_attention := gpa_forward half (fc_init alg embed_dim wq bq wk bk a)
                       (mk_linear embed_dim 1 watt batt) |}.

(** [SelfAttentionGA.forward]. *)
Definition sa_forward (l : sa_layer) (x : tensor) : option tensor :=
  let? x := embed_grade (sa_algebra l) x 1 in
  match shape x with
  | [_; _; _] =>
      let? v := linear_forward (v_proj l) x in
      let? s := ga_attention l x in
      let mv_attn := squeeze_last s in
      let attn_probs := softmax_last mv_attn in
      einsum_bqk_bvd attn_probs v
  | _ => None
  end.

(** ** [GPD.py] *)

(** The modules [MVReLU], [SteerableGeometricProductLayer] and [MVLayerNorm]
    of [clifford_modules] are not part of the sources and the spec does not
    describe them: they are left abstract, as the forward function of the
    instance built for block [i] of a [CGEMLP] with the given number of
    features.  [blk_w i] and [blk_b i] are the weights of that block's
    [MVLinear]. *)
Record cge_modules := mk_cge_modules {
  mvrelu : nat -> nat -> tensor -> option tensor;
  steerable_gp : nat -> nat -> tensor -> option tensor;
  mvlayernorm : nat -> nat -> tensor -> option tensor;
  blk_w : nat -> list nat -> R;
  blk_b : nat -> list nat -> R
}.

(** [CGEBlock(algebra, in_features, out_features)], block [i] of its
    [CGEMLP]: the [nn.Sequential] of [MVLinear], [MVReLU],
    [SteerableGeometricProductLayer] and [MVLayerNorm] (the [print] has no
    effect on the values). *)
Definition cgeblock_forward (alg : algebra) (mods : cge_modules) (i in_features out_features : nat)
    (input : tensor) : option tensor :=
  let? x := mvlinear_forward alg (mk_mvlinear in_features out_features (blk_w mods i) (blk_b mods i))
              input in
  let? x := mvrelu mods i out_features x in
  let? x := steerable_gp mods i out_features x in
  mvlayernorm mods i out_features x.

(** The loop [for i in range(k): layers.append(CGEBlock(algebra, in_features,
    hidden_features)); in_features = hidden_features]: the (in, out)
    features of the blocks it appends. *)
Fixpoint cgemlp_hidden (k in_features hidden_features : nat) : list (nat * nat) :=
  match k with
  | 0 => []
  | S k' => (in_features, hidden_features) :: cgemlp_hidden k' hidden_features hidden_features
  end.

(** [CGEMLP.__init__]: the (in, out) features of its blocks, in order
    ([range(n_layers - 1)] is empty when [n_layers <= 1]). *)
Definition cgemlp_blocks (in_features hidden_features out_features n_layers : nat)
  : list (nat * nat) :=
  cgemlp_hidden (n_layers - 1) in_features hidden_features ++ [(hidden_features, out_features)].

(** [nn.Sequential] over the list [layers], applied to the blocks, the first one being
    block [i]. *)
Fixpoint run_blocks (alg : algebra) (mods : cge_modules) (i : nat) (blocks : list (nat * nat))
    (x : tensor) : option tensor :=
  match blocks with
  | [] => Some x
  | (fi, fo) :: bs =>
      let? x := cgeblock_forward alg mods i fi fo x in
      run_blocks alg mods (S i) bs x
  end.

(** [CGEMLP.forward]. *)
Definition cgemlp_forward (alg : algebra) (mods : cge_modules)
    (in_features hidden_features out_features n_layers : nat) (input : tensor) : option tensor :=
  run_blocks alg mods 0 (cgemlp_blocks in_features hidden_features out_features n_layers) input.

(** A module of a block that, given [features] features, maps every tensor
    [[batch, features, 2 ** dim]] to a tensor of the same shape. *)
Definition preserves_mv_shape (alg : algebra) (g : nat -> nat -> tensor -> option tensor) : Prop :=
  forall i features b t, shape t = [b; features; mv_dim alg] ->
  exists t', g i features t = Some t' /\ shape t' = [b; features; mv_dim alg].

(** [InvariantCGENN]: the [CGEMLP] stack and the [upsampling] linear layer. *)
Record icgenn := mk_icgenn {
  ic_algebra : algebra;
  ic_in_features : nat;
  cgemlp : tensor -> option tensor;
  upsampling : linear
}.

(** [InvariantCGENN.__init__]. *)
Definition ic_init (alg : algebra) (in_features hidden_features : nat)
    (mlp : tensor -> option tensor) (w b : list nat -> R) : icgenn :=
  {| ic_algebra := alg;
     ic_in_features := in_features;
     cgemlp := mlp;
     upsampling := mk_linear (hidden_features * mv_dim alg)
                             (in_features * alg_dim alg) w b |}.

(** [InvariantCGENN.forward]. *)
Definition ic_forward (l : icgenn) (input : tensor) : option tensor :=
  let? h := cgemlp l input in
  let? h := flatten_batch h in
  let? x := linear_forward (upsampling l) h in
  reshape_m1 x (ic_in_features l) (alg_dim (ic_algebra l)).

(** [InvariantCGENN(algebra, in_features, hidden_features, out_features,
    restore_dim)]: its stack is [CGEMLP(algebra, in_features,
    hidden_features, hidden_features)] with the default [n_layers = 2];
    [out_features] and [restore_dim] are not used. *)
Definition invariant_cgenn (alg : algebra) (mods : cge_modules)
    (in_features hidden_features out_features restore_dim : nat) (w b : list nat -> R) : icgenn :=
  ic_init alg in_features hidden_features
    (cgemlp_forward alg mods in_features hidden_features hidden_features 2) w b.

(** ** [tools/training.py] and [tools/ga_training.py] *)

(** [output[-1]]: raises on an empty list. *)
Definition last_opt {A : Type} (l : list A) : option A :=
  match rev l with [] => None | x :: _ => Some x end.

(** [GaTrainer.train], inside a batch: the backbone (PoinTr) is run on the
    partial and on the complete cloud, its last output on the partial cloud
    is embedded as grade-1 multivectors and fed to [main_model]. *)
Definition ga_forward (alg : algebra) (backbone : tensor -> option (list tensor))
    (main_model : tensor -> option tensor) (partial : tensor) : option tensor :=
  let? ret := backbone partial in
  let? raw_output := last_opt ret in
  let? raw_output := embed_grade alg raw_output 1 in
  main_model raw_output.

(** The two arguments [GaTrainer.train] passes to [loss_fn] for a batch
    [(partial, complete)]. *)
Definition ga_loss_args (alg : algebra) (backbone : tensor -> option (list tensor))
    (main_model : tensor -> option tensor) (partial complete : tensor)
  : option (tensor * tensor) :=
  let? ret := backbone partial in
  let? ret_t := backbone complete in
  let? target := last_opt ret_t in
  let? raw_output := last_opt ret in
  let? raw_output := embed_grade alg raw_output 1 in
  let? deformed_points := main_model raw_output in
  Some (deformed_points, target).

(** The two arguments [Trainer.train] passes to [loss_fn] for a batch
    [(partial, complete)]: [loss_fn(output[-1], complete)]. *)
Definition trainer_loss_args (model : tensor -> option (list tensor))
    (partial complete : tensor) : option (tensor * tensor) :=
  let? output := model partial in
  let? o := last_opt output in
  Some (o, complete).

Section Training.

(** The model and optimizer state [St], a batch [Batch] and a state dict [SD]. *)
Variables (St Batch SD : Type).

(** One optimisation step on a batch (zero_grad, forward, loss, backward,
    optimizer.step), returning the new state and [loss.item()]. *)
Variable batch_step : St -> Batch -> St * R.

(** [model.state_dict()] and [optimizer.state_dict()]. *)
Variables (model_sd opt_sd : St -> SD).

(** [scheduler.step()] when a scheduler is configured. *)
Variable scheduler : option (St -> St).

(** [cfg['debug']], [cfg['progressive_saves']], [cfg['save_step']]. *)
Record trainer_cfg := mk_trainer_cfg {
  debug : bool;
  progressive : bool;
  save_step : nat
}.

Record checkpoint := mk_checkpoint {
  ck_epoch : nat;
  ck_model : SD;
  ck_optimizer : SD
}.

(** [save_path/training/<step*(epoch+1)>] and [save_path/training/final]. *)
Inductive save_dir := StepDir (n : nat) | FinalDir.

(** The files written: [checkpoint.pt] and [train_losses.json]. *)
Inductive write :=
| WriteCheckpoint (d : save_dir) (c : checkpoint)
| WriteLosses (d : save_dir) (trend : list (nat * list R)).

(** [self.loss_trend[epoch_key]], the key ["epoch_" + str(epoch)] being
    represented by the epoch number; a new key goes last. *)
Fixpoint trend_add (tr : list (nat * list R)) (e : nat) (x : R) : list (nat * list R) :=
  match tr with
  | [] => [(e, [x])]
  | (k, xs) :: tr' => if Nat.eqb k e then (k, xs ++ [x]) :: tr' else (k, xs) :: trend_add tr' e x
  end.

(** [self.loss_trend.get(epoch_key, [])]. *)
Fixpoint trend_get (tr : list (nat * list R)) (e : nat) : list R :=
  match tr with
  | [] => []
  | (k, xs) :: tr' => if Nat.eqb k e then xs else trend_get tr' e
  end.

(** The variables of [Trainer.train]: the Python loop variables [step] and
    [epoch] stay bound after their loop. *)
Record tstate := mk_tstate {
  ts_model : St;
  ts_trend : list (nat * list R);
  ts_trace : list write;
  ts_reports : list R;
  ts_step : option nat;
  ts_epoch : option nat
}.

(** The progressive save of a batch: [step % save_step] is evaluated as soon
    as [step > 0] (ZeroDivisionError when [save_step = 0]). *)
Definition progressive_save (cfg : trainer_cfg) (epoch step : nat) (m : St)
    (trace : list write) : option (list write) :=
  if 0 <? step then
    if Nat.eqb (save_step cfg) 0 then None
    else if Nat.eqb (step mod save_step cfg) 0 && progressive cfg && negb (debug cfg)
    then Some (trace ++ [WriteCheckpoint (StepDir (step * (epoch + 1)))
                           (mk_checkpoint epoch (model_sd m) (opt_sd m))])
    else Some trace
  else Some trace.

(** The inner loop [for step, pcd in enumerate(dataloader)], returning the
    state and [epoch_loss]. *)
Fixpoint run_batches (cfg : trainer_cfg) (epoch step : nat) (s : tstate) (acc : R)
    (bs : list Batch) : option (tstate * R) :=
  match bs with
  | [] => Some (s, acc)
  | b :: bs' =>
      let r := batch_step (ts_model s) b in
      let m := fst r in
      let acc := (acc + snd r)%R in
      let trend := trend_add (ts_trend s) epoch (snd r) in
      let? trace := progressive_save cfg epoch step m (ts_trace s) in
      let s := mk_tstate m trend trace (ts_reports s) (Some step) (ts_epoch s) in
      if debug cfg then Some (s, acc) else run_batches cfg epoch (S step) s acc bs'
  end.

(** The outer loop [for epoch in range(train_epochs)], from epoch [e] with [n]
    epochs left; [batches e] is the dataloader's sequence in epoch [e]. *)
Fixpoint run_epochs (cfg : trainer_cfg) (batches : nat -> list Batch) (e n : nat)
    (s : tstate) : option tstate :=
  match n with
  | 0 => Some s
  | S n' =>
      let s := mk_tstate (ts_model s) (ts_trend s) (ts_trace s) (ts_reports s)
                         (ts_step s) (Some e) in
      let? r := run_batches cfg e 0 s 0%R (batches e) in
      let s := fst r in
      let m := match scheduler with Some f => f (ts_model s) | None => ts_model s end in
      let? step := ts_step s in
      let epoch_loss := (snd r / INR (step + 1))%R in
      let s := mk_tstate m (ts_trend s) (ts_trace s) (ts_reports s ++ [epoch_loss])
                         (ts_step s) (ts_epoch s) in
      if debug cfg then Some s else run_epochs cfg batches (S e) n' s
  end.

(** [Trainer.train] on a fresh [Trainer] (empty [loss_trend]): the epochs,
    then the final checkpoint and the loss history. *)
Definition trainer_train (cfg : trainer_cfg) (train_epochs : nat)
    (batches : nat -> list Batch) (m0 : St) : option tstate :=
  let s0 := mk_tstate m0 [] [] [] None None in
  let? s := run_epochs cfg batches 0 train_epochs s0 in
  let? epoch := ts_epoch s in
  let m := ts_model s in
  let ck := mk_checkpoint epoch (model_sd m) (opt_sd m) in
  Some (mk_tstate m (ts_trend s)
          (ts_trace s ++ [WriteCheckpoint FinalDir ck; WriteLosses FinalDir (ts_trend s)])
          (ts_reports s) (ts_step s) (ts_epoch s)).

(** [GaTrainer.train]'s inner loop: the state, [epoch_loss] and [batch_idx]. *)
Fixpoint ga_run_batches (idx : nat) (m : St) (acc : R) (bidx : option nat)
    (bs : list Batch) : St * R * option nat :=
  match bs with
  | [] => (m, acc, bidx)
  | b :: bs' =>
      let r := batch_step m b in
      ga_run_batches (S idx) (fst r) (acc + snd r)%R (Some idx) bs'
  end.

(** [GaTrainer.train]'s outer loop, returning the reported epoch losses. *)
Fixpoint ga_run_epochs (batches : nat -> list Batch) (e n : nat) (m : St)
    (bidx : option nat) (reports : list R) : option (list R) :=
  match n with
  | 0 => Some reports
  | S n' =>
      let '(m, acc, bidx) := ga_run_batches 0 m 0%R bidx (batches e) in
      let? i := bidx in
      ga_run_epochs batches (S e) n' m bidx (reports ++ [(acc / INR (i + 1))%R])
  end.

Definition ga_train (train_epochs : nat) (batches : nat -> list Batch) (m0 : St)
  : option (list R) :=
  ga_run_epochs batches 0 train_epochs m0 None [].

(** [Trainer.test]'s loop: [eval_loss b] is [loss_fn(output[-1],
    complete).item()] for the batch [b], the model being in eval mode and
    under [torch.no_grad()], so it is not changed; the loop variable [step]
    stays bound after the loop. *)
Fixpoint test_batches (eval_loss : Batch -> R) (idx : nat) (step : option nat)
    (batch_loss : R) (bs : list Batch) : option nat * R :=
  match bs with
  | [] => (step, batch_loss)
  | b :: bs' => test_batches eval_loss (S idx) (Some idx) (batch_loss + eval_loss b)%R bs'
  end.

(** [Trainer.test]: the value it stores in [self.test_loss] (and writes to
    [evaluation/test_loss.txt]); [step + 1] raises [NameError] when the
    dataloader is empty. *)
Definition trainer_test (eval_loss : Batch -> R) (bs : list Batch) : option R :=
  let '(step, batch_loss) := test_batches eval_loss 0 None 0%R bs in
  let? step := step in
  Some (batch_loss / INR (step + 1))%R.

(** The [loss.item()] values of a pass over [bs] from state [m], in order. *)
Fixpoint batch_losses (m : St) (bs : list Batch) : list R :=
  match bs with
  | [] => []
  | b :: bs' => snd (batch_step m b) :: batch_losses (fst (batch_step m b)) bs'
  end.

(** The state after a pass over [bs] from state [m]. *)
Fixpoint after_batches (m : St) (bs : list Batch) : St :=
  match bs with
  | [] => m
  | b :: bs' => after_batches (fst (batch_step m b)) bs'
  end.

(** The model and optimizer state at the start of epoch [e + k] of a run
    without debug, from the state [m] at the start of epoch [e]: each epoch
    is a pass over its dataloader followed by [scheduler.step()]. *)
Fixpoint epoch_start (batches : nat -> list Batch) (e k : nat) (m : St) : St :=
  match k with
  | 0 => m
  | S k' =>
      let m := after_batches m (batches e) in
      let m := match scheduler with Some f => f m | None => m end in
      epoch_start batches (S e) k' m
  end.

End Training.

Arguments mk_checkpoint {SD}.
Arguments WriteCheckpoint {SD}.
Arguments WriteLosses {SD}.
Arguments mk_tstate {St SD}.
Arguments ts_model {St SD}.
Arguments ts_trend {St SD}.
Arguments ts_trace {St SD}.
Arguments ts_reports {St SD}.
Arguments ts_step {St SD}.
Arguments ts_epoch {St SD}.
Arguments progressive_save {St SD}.
Arguments run_batches {St Batch SD}.
Arguments run_epochs {St Batch SD}.
Arguments trainer_train {St Batch SD}.
Arguments ga_run_batches {St Batch}.
Arguments ga_run_epochs {St Batch}.
Arguments ga_train {St Batch}.
Arguments batch_losses {St Batch}.
Arguments after_batches {St Batch}.
Arguments epoch_start {St Batch}.
Arguments test_batches {Batch}.
Arguments trainer_test {Batch}.

(** ** Test inputs *)

(** The algebra of 3-D coordinates ([metric = [1, 1, 1]]) with a placeholder
    Cayley tensor and norm. *)
Definition alg3 : algebra :=
  mk_algebra 3 (mk_tensor [8; 8; 8] (fun _ => 0%R)) (fun _ _ => 0%R).

(** A tensor of the given shape filled with zeros. *)
Definition zeros (s : list nat) : tensor := mk_tensor s (fun _ => 0%R).

Definition zero_params : list nat -> R := fun _ => 0%R.

(** A fully connected layer whose submodules pass their input through. *)
Definition fc_passthrough : fc_layer :=
  mk_fc_layer alg3 8 (fun t => Some t) (fun t => Some t) (fun t => Some t).

(** A backbone whose last (dense) output has 4 points, as PoinTr's upsampled
    cloud is denser than its input. *)
Definition dense_backbone (t : tensor) : option (list tensor) :=
  Some [t; zeros [1; 4; 3]].

(** [SelfAttentionGA(algebra, embed_dim=8)] over [alg3], with zero weights and
    no rounding in [half()]. *)
Definition sa_zero : sa_layer :=
  sa_init (fun r => r) alg3 8 zero_params zero_params zero_params zero_params
    zero_params zero_params zero_params zero_params zero_params.

(** A training run where the state counts the optimisation steps, a batch
    is its own loss value and the state dicts are the step count. *)
Definition toy_step (m : nat) (b : R) : nat * R := (S m, b).

Definition toy_batches (e : nat) : list R := [1%R; 2%R; 3%R].

Definition toy_cfg : trainer_cfg := mk_trainer_cfg false true 2.

(** [CGEBlock] modules that pass their input through, and zero [MVLinear]
    weights. *)
Definition cge_identity : cge_modules :=
  mk_cge_modules (fun _ _ t => Some t) (fun _ _ t => Some t) (fun _ _ t => Some t)
    (fun _ => zero_params) (fun _ => zero_params).

(** A run of [Trainer.train] saving at every step. *)
Definition toy_cfg_every_step : trainer_cfg := mk_trainer_cfg false true 1.

(** * Generic lemmas *)

Lemma sumR_ext (n : nat) (f g : nat -> R) :
  (forall k, k < n -> f k = g k) -> sumR n f = sumR n g.
Proof.
  induction n as [|n IH]; intros H; simpl; [reflexivity|].
  rewrite IH by (intros; apply H; lia). rewrite H by lia. reflexivity.
Qed.

Lemma eqb1_index (d i : nat) : i < d -> (if Nat.eqb d 1 then 0 else i) = i.
Proof. intros H. destruct (Nat.eqb_spec d 1); lia. Qed.

Lemma bcast_index_in_bounds (s idx : list nat) :
  in_bounds idx s -> bcast_index s idx = idx.
Proof.
  intros H. unfold bcast_index.
  rewrite (Forall2_length H), Nat.sub_diag. simpl skipn.
  induction H as [|i d idx s Hid H IH]; simpl; [reflexivity|].
  rewrite IH, eqb1_index by exact Hid. reflexivity.
Qed.

Lemma bcast_index_suffix (s pre idx : list nat) :
  in_bounds idx s -> bcast_index s (pre ++ idx) = idx.
Proof.
  intros H. unfold bcast_index.
  rewrite length_app, (Forall2_length H), Nat.add_sub.
  rewrite skipn_app, skipn_all, Nat.sub_diag. simpl.
  pose proof (bcast_index_in_bounds s idx H) as E. unfold bcast_index in E.
  rewrite (Forall2_length H), Nat.sub_diag in E. exact E.
Qed.

Lemma bcast_rev_app (l m : list nat) : bcast_rev l (l ++ m) = Some (l ++ m).
Proof.
  induction l as [|x l IH]; simpl; [reflexivity|].
  rewrite IH, Nat.eqb_refl. reflexivity.
Qed.

Lemma broadcast_shapes_suffix (s pre : list nat) :
  broadcast_shapes s (pre ++ s) = Some (pre ++ s).
Proof.
  unfold broadcast_shapes. rewrite rev_app_distr, bcast_rev_app. simpl.
  rewrite rev_app_distr, !rev_involutive. reflexivity.
Qed.

Lemma zip_with_suffix (f : R -> R -> R) (t1 t2 : tensor) (pre : list nat) :
  shape t2 = pre ++ shape t1 ->
  zip_with f t1 t2 =
  Some (mk_tensor (pre ++ shape t1) (fun idx =>
          f (get t1 (bcast_index (shape t1) idx)) (get t2 (bcast_index (shape t2) idx)))).
Proof.
  intros H. unfold zip_with. rewrite H, broadcast_shapes_suffix. reflexivity.
Qed.

Lemma zip_with_same (f : R -> R -> R) (t1 t2 : tensor) (s : list nat) :
  shape t1 = s -> shape t2 = s ->
  zip_with f t1 t2 =
  Some (mk_tensor s (fun idx => f (get t1 (bcast_index s idx)) (get t2 (bcast_index s idx)))).
Proof.
  intros H1 H2. unfold zip_with. rewrite H1, H2.
  pose proof (broadcast_shapes_suffix s []) as E. simpl in E. rewrite E. reflexivity.
Qed.

Lemma broadcast_q_k (B S : nat) : broadcast_shapes [B; S; 1] [B; 1; S] = Some [B; S; S].
Proof.
  unfold broadcast_shapes.
  destruct S as [|[|S]]; simpl; rewrite Nat.eqb_refl; reflexivity.
Qed.

Lemma bcast_index_q (B S b i j : nat) :
  b < B -> i < S -> bcast_index [B; S; 1] [b; i; j] = [b; i; 0].
Proof.
  intros Hb Hi. unfold bcast_index. simpl.
  rewrite (eqb1_index B b Hb), (eqb1_index S i Hi). reflexivity.
Qed.

Lemma bcast_index_k (B S b i j : nat) :
  b < B -> j < S -> bcast_index [B; 1; S] [b; i; j] = [b; 0; j].
Proof.
  intros Hb Hj. unfold bcast_index. simpl.
  rewrite (eqb1_index B b Hb), (eqb1_index S j Hj). reflexivity.
Qed.

(** * Claims *)

(** ** The geometric-product layer *)

(** C1. For a 3-D input whose projected and normalized query [q] and key [k]
    have shape [B; S; D] and a Cayley tensor of shape [D; D; D], the forward
    pass of [FullyConnectedSteerableGeometricProductLayer] returns a tensor of
    shape [B; S; S; D] whose entry [(b, i, j, m)] is
    [sum_l sum_n q[b,i,l] * cayley[l,m,n] * k[b,j,n]], each operand read
    through the [.half()] cast. *)
Theorem fc_forward_cayley_contraction (half : R -> R) (l : fc_layer)
    (input q0 k0 q k : tensor) (B S D : nat) :
  length (shape input) = 3 ->
  q_prj l input = Some q0 -> k_prj l input = Some k0 ->
  normalization l q0 = Some q -> normalization l k0 = Some k ->
  shape q = [B; S; D] -> shape k = [B; S; D] ->
  shape (cayley (fc_algebra l)) = [D; D; D] ->
  exists out, fc_forward half l input = Some out /\ shape out = [B; S; S; D] /\
    forall b i j m, b < B -> i < S -> j < S -> m < D ->
      get out [b; i; j; m] =
      sumR D (fun l' => sumR D (fun n =>
        (half (get q [b; i; l']) * half (get (cayley (fc_algebra l)) [l'; m; n])
         * half (get k [b; j; n]))%R)).
Proof.
  intros H3 Hq0 Hk0 Hq Hk Hsq Hsk Hsc.
  unfold fc_forward.
  destruct (shape input) as [|x1 [|x2 [|x3 [|]]]]; simpl in H3; try discriminate.
  rewrite Hq0, Hk0. cbn [obind]. rewrite Hq, Hk. cbn [obind].
  unfold unsqueeze. rewrite Hsq, Hsk. cbn [obind length Nat.leb].
  unfold fast_einsum, contiguous. cbn [shape tmap insert_at rev app].
  rewrite Hsc, Nat.eqb_refl. cbn [andb rev app].
  rewrite broadcast_q_k.
  eexists. split; [reflexivity|]. split; [reflexivity|].
  intros b i j m Hb Hi Hj Hm. cbn [get tmap removelast last].
  apply sumR_ext. intros l' Hl'. apply sumR_ext. intros n Hn.
  rewrite (bcast_index_q B S b i j Hb Hi), (bcast_index_k B S b i j Hb Hj).
  reflexivity.
Qed.

(** Witness of C1: pass-through submodules on an input of shape [1; 2; 8]. *)
Lemma fc_forward_cayley_contraction_witness :
  exists out, fc_forward (fun x => x) fc_passthrough (zeros [1; 2; 8]) = Some out
    /\ shape out = [1; 2; 2; 8] /\
    forall b i j m, b < 1 -> i < 2 -> j < 2 -> m < 8 ->
      get out [b; i; j; m] =
      sumR 8 (fun l' => sumR 8 (fun n =>
        Rmult (Rmult (get (zeros [1; 2; 8]) [b; i; l']) (get (cayley alg3) [l'; m; n]))
              (get (zeros [1; 2; 8]) [b; j; n]))).
Proof.
  apply (fc_forward_cayley_contraction (fun x => x) fc_passthrough (zeros [1; 2; 8])
           (zeros [1; 2; 8]) (zeros [1; 2; 8]) (zeros [1; 2; 8]) (zeros [1; 2; 8]) 1 2 8);
    reflexivity.
Defined.

(** ** The normalization layer *)

Ltac bounds :=
  unfold in_bounds; repeat (apply Forall2_cons; [lia|]); apply Forall2_nil.

Lemma binom_gt (n k : nat) : n < k -> binom n k = 0.
Proof.
  revert k. induction n as [|n IH]; intros [|k] H; simpl; try lia.
  rewrite !IH by lia. reflexivity.
Qed.

Lemma binom_sum_succ (n m : nat) :
  list_sum (map (binom (S n)) (seq 0 (S m)))
  = list_sum (map (binom n) (seq 0 (S m))) + list_sum (map (binom n) (seq 0 m)).
Proof.
  induction m as [|m IH]; [destruct n; reflexivity|].
  rewrite (seq_S (S m)), !map_app, !list_sum_app, IH.
  rewrite (seq_S m), !map_app, !list_sum_app. cbn [map list_sum fold_right].
  change (0 + m) with m. change (0 + S m) with (S m).
  change (binom (S n) (S m)) with (binom n m + binom n (S m)). lia.
Qed.

Lemma list_sum_subspaces (alg : algebra) : list_sum (subspaces alg) = mv_dim alg.
Proof.
  unfold subspaces, mv_dim. induction (alg_dim alg) as [|d IH]; [reflexivity|].
  rewrite binom_sum_succ, (seq_S (S d)), map_app, list_sum_app, IH. simpl.
  rewrite (binom_gt d (S d)) by lia. lia.
Qed.

Lemma length_subspaces (alg : algebra) : length (subspaces alg) = n_subspaces alg.
Proof. unfold subspaces, n_subspaces. rewrite length_map, length_seq. reflexivity. Qed.

Lemma owner_lt (reps : list nat) (c : nat) :
  c < list_sum reps -> owner reps c < length reps.
Proof.
  revert c. induction reps as [|r rs IH]; intros c H; simpl in *; [lia|].
  destruct (Nat.ltb_spec c r); [lia|]. specialize (IH (c - r)). lia.
Qed.

Lemma grade_of_lt (alg : algebra) (c : nat) :
  c < mv_dim alg -> grade_of alg c < n_subspaces alg.
Proof.
  intros H. unfold grade_of. rewrite <- length_subspaces.
  apply owner_lt. rewrite list_sum_subspaces. exact H.
Qed.

(** [NormalizationLayer.forward] on a 3-D input [B; S; D] whose last axis is
    a full multivector of [D = 2 ** dim] blades, [D] being the configured
    feature count, and [S <= 3000]. *)
Lemma norm_forward_3d_spec (alg : algebra) (a : list nat -> R) (input : tensor)
    (B S : nat) :
  shape input = [B; S; mv_dim alg] -> S <= max_seq ->
  exists out, norm_forward (norm_init alg (mv_dim alg) a) input = Some out /\
    shape out = [B; S; mv_dim alg] /\
    forall b p c, b < B -> p < S -> c < mv_dim alg ->
      get out [b; p; c] =
      (get input [b; p; c]
       / (sigmoid (a [p; grade_of alg c])
          * (grade_norm alg (grade_of alg c)
               (grade_part alg input (mv_dim alg) [b; p] (grade_of alg c)) - 1)
          + 1 + norm_eps))%R.
Proof.
  intros Hs HS.
  unfold norm_forward, norm_init. cbn [nl_algebra nl_in_features nl_a].
  rewrite Hs. cbn [nth_error]. rewrite Nat.eqb_refl. cbn [negb].
  unfold algebra_norms. rewrite Hs. cbn [obind removelast app last].
  cbn [nth slice_rows tmap shape]. rewrite Nat.min_l by exact HS.
  rewrite zip_with_suffix with (pre := [B]) by reflexivity. cbn [obind].
  unfold repeat_interleave_last. cbn [shape tmap app rev].
  rewrite length_subspaces, Nat.eqb_refl, list_sum_subspaces. cbn [obind app].
  rewrite zip_with_same with (s := [B; S; mv_dim alg]) by (try exact Hs; reflexivity).
  eexists. split; [reflexivity|]. split; [reflexivity|].
  intros b p c Hb Hp Hc. cbn [get tmap shape].
  rewrite bcast_index_in_bounds by bounds.
  cbn [removelast last app].
  fold (grade_of alg c).
  pose proof (grade_of_lt alg c Hc) as Hg.
  pose proof (bcast_index_suffix [S; n_subspaces alg] [b] [p; grade_of alg c]
                ltac:(bounds)) as E.
  cbn [app] in E. rewrite E.
  rewrite (bcast_index_in_bounds [B; S; n_subspaces alg]) by bounds.
  reflexivity.
Qed.

Lemma norm_forward_assert (alg : algebra) (f : nat) (a : list nat -> R) (input : tensor) :
  nth_error (shape input) 2 <> Some f -> norm_forward (norm_init alg f a) input = None.
Proof.
  intros H. unfold norm_forward, norm_init. cbn [nl_algebra nl_in_features nl_a].
  destruct (nth_error (shape input) 2) as [x|]; [|reflexivity].
  destruct (Nat.eqb_spec x f) as [->|]; [contradiction|reflexivity].
Qed.

Lemma norm_forward_long_seq (alg : algebra) (f : nat) (a : list nat -> R) (input : tensor)
    (B S D : nat) :
  shape input = [B; S; D] -> max_seq < S -> norm_forward (norm_init alg f a) input = None.
Proof.
  intros Hs HS. unfold norm_forward, norm_init. cbn [nl_algebra nl_in_features nl_a].
  rewrite Hs. cbn [nth_error]. destruct (Nat.eqb D f); cbn [negb]; [|reflexivity].
  unfold algebra_norms. rewrite Hs. cbn [obind removelast app last].
  unfold zip_with. cbn [nth slice_rows tmap shape]. rewrite Nat.min_r by lia.
  assert (E1 : Nat.eqb max_seq S = false) by (apply Nat.eqb_neq; lia).
  assert (E2 : Nat.eqb max_seq 1 = false) by reflexivity.
  assert (E3 : Nat.eqb S 1 = false) by (apply Nat.eqb_neq; unfold max_seq in HS; lia).
  unfold broadcast_shapes. cbn [rev app bcast_rev].
  rewrite Nat.eqb_refl, E1, E2, E3. reflexivity.
Qed.




(** C9. [NormalizationLayer.forward] raises unless axis 2 of the
    input has the configured feature count; on 3-D inputs [B; S; D] it raises
    whenever [S > 3000] (the scale parameter has 3000 rows) and is defined for
    [S <= 3000] when [D = 2 ** dim] is the feature count. *)
Theorem norm_forward_guard_and_seq_cap (alg : algebra) (f : nat) (a : list nat -> R)
    (input : tensor) :
  (nth_error (shape input) 2 <> Some f -> norm_forward (norm_init alg f a) input = None) /\
  (forall B S D, shape input = [B; S; D] -> max_seq < S ->
     norm_forward (norm_init alg f a) input = None) /\
  (forall B S, shape input = [B; S; mv_dim alg] -> f = mv_dim alg -> S <= max_seq ->
     exists out, norm_forward (norm_init alg f a) input = Some out).
Proof.
  split; [apply norm_forward_assert|]. split; [apply norm_forward_long_seq|].
  intros B S Hs -> HS.
  destruct (norm_forward_3d_spec alg a input B S Hs HS) as [out [E _]].
  exists out. exact E.
Qed.

Lemma norm_forward_guard_and_seq_cap_witness :
  norm_forward (norm_init alg3 8 zero_params) (zeros [1; 2; 9]) = None /\
  norm_forward (norm_init alg3 8 zero_params) (zeros [1; 3001; 8]) = None /\
  exists out, norm_forward (norm_init alg3 8 zero_params) (zeros [1; 2; 8]) = Some out.
Proof.
  split; [|split].
  - apply (proj1 (norm_forward_guard_and_seq_cap alg3 8 zero_params (zeros [1; 2; 9]))).
    simpl. congruence.
  - apply (proj1 (proj2 (norm_forward_guard_and_seq_cap alg3 8 zero_params (zeros [1; 3001; 8])))
             1 3001 8); [reflexivity | unfold max_seq; lia].
  - apply (proj2 (proj2 (norm_forward_guard_and_seq_cap alg3 8 zero_params (zeros [1; 2; 8])))
             1 2); [reflexivity | reflexivity | unfold max_seq; lia].
Defined.

(** ** Fixed projections of the geometric-product layer *)

(** C10. The query and key projections of
    [FullyConnectedSteerableGeometricProductLayer] are [MVLinear(algebra,
    2048, 2048)] whatever the [features] argument, and for every [features]
    the forward pass rejects an input whose sequence axis (axis 1) is not
    2048. *)
Theorem fc_projections_ignore_features (half : R -> R) (alg : algebra)
    (wq bq wk bk a : list nat -> R) :
  (forall f, q_prj (fc_init alg f wq bq wk bk a) = mvlinear_forward alg (mk_mvlinear 2048 2048 wq bq)
          /\ k_prj (fc_init alg f wq bq wk bk a) = mvlinear_forward alg (mk_mvlinear 2048 2048 wk bk)) /\
  (forall features input, nth 1 (shape input) 0 <> 2048 ->
     fc_forward half (fc_init alg features wq bq wk bk a) input = None).
Proof.
  split; [intros f; split; reflexivity|].
  intros features input Hn. unfold fc_forward.
  destruct (shape input) as [|x1 [|x2 [|x3 [|]]]] eqn:Hs; try reflexivity.
  cbn [fc_init q_prj]. unfold mvlinear_forward. rewrite Hs. cbn [mv_in].
  simpl in Hn. apply Nat.eqb_neq in Hn. rewrite Hn. reflexivity.
Qed.

Lemma fc_projections_ignore_features_witness :
  fc_forward (fun x => x) (fc_init alg3 8 zero_params zero_params zero_params zero_params zero_params)
    (zeros [1; 3; 8]) = None.
Proof.
  apply (proj2 (fc_projections_ignore_features (fun x => x) alg3 zero_params zero_params
                  zero_params zero_params zero_params) 8 (zeros [1; 3; 8])).
  simpl. lia.
Defined.

(** ** Precision and layout of the contraction *)

(** C8. In [FullyConnectedSteerableGeometricProductLayer.forward] the query,
    the Cayley tensor and the key reach [fast_einsum] contiguous and in
    [float16], whatever the dtype and layout of the projections, the
    normalisation and the stored Cayley tensor, and the contraction runs
    with [autocast] enabled; the values are those of [fc_forward]. *)
Theorem fc_forward_half_contiguous_autocast (half : R -> R) (l : fc_layer)
    (tag : tensor -> dtype * bool) (cay_tag : dtype * bool) (input : ttensor) :
  option_map (fun p => tval (fst p)) (fc_forward_tagged half l tag cay_tag input)
    = fc_forward half l (tval input) /\
  forall o call, fc_forward_tagged half l tag cay_tag input = Some (o, call) ->
    ec_operands call = [(Float16, true); (Float16, true); (Float16, true)] /\
    ec_autocast call = true.
Proof.
  unfold fc_forward_tagged, fc_forward.
  destruct (shape (tval input)) as [|x1 [|x2 [|x3 [|]]]]; try (split; [reflexivity|intros ? ? Hc; cbn match in Hc; discriminate Hc]).
  unfold tt_module, tt_unsqueeze. cbn [tval].
  destruct (q_prj l (tval input)) as [q0|]; cbn [obind tval]; [|split; [reflexivity|intros ? ? Hc; cbn match in Hc; discriminate Hc]].
  destruct (k_prj l (tval input)) as [k0|]; cbn [obind tval]; [|split; [reflexivity|intros ? ? Hc; cbn match in Hc; discriminate Hc]].
  destruct (normalization l q0) as [q|]; cbn [obind tval]; [|split; [reflexivity|intros ? ? Hc; cbn match in Hc; discriminate Hc]].
  destruct (normalization l k0) as [k|]; cbn [obind tval]; [|split; [reflexivity|intros ? ? Hc; cbn match in Hc; discriminate Hc]].
  destruct (unsqueeze 2 q) as [qe|]; cbn [obind tval]; [|split; [reflexivity|intros ? ? Hc; cbn match in Hc; discriminate Hc]].
  destruct (unsqueeze 1 k) as [ke|]; cbn [obind tval]; [|split; [reflexivity|intros ? ? Hc; cbn match in Hc; discriminate Hc]].
  unfold autocast_region, fast_einsum_tagged, tt_half, tt_contiguous. cbn [tval tdtype tcontig].
  destruct (fast_einsum _ _ _) as [out|]; cbn [obind option_map fst tval];
    [|split; [reflexivity|intros ? ? Hc; cbn match in Hc; discriminate Hc]].
  split; [reflexivity|]. intros o call H. injection H as _ <-. split; reflexivity.
Qed.

Lemma fc_forward_half_contiguous_autocast_witness :
  exists o call,
    fc_forward_tagged (fun r => r) fc_passthrough (fun _ => (Float32, false)) (Float32, false)
      (mk_ttensor (zeros [1; 2; 8]) Float32 false) = Some (o, call) /\
    ec_operands call = [(Float16, true); (Float16, true); (Float16, true)] /\
    ec_autocast call = true.
Proof.
  do 2 eexists. split; [reflexivity|].
  eapply (proj2 (fc_forward_half_contiguous_autocast (fun r => r) fc_passthrough
                  (fun _ => (Float32, false)) (Float32, false)
                  (mk_ttensor (zeros [1; 2; 8]) Float32 false))).
  reflexivity.
Defined.

(** ** From coordinates to multivectors and back *)

Lemma binom_1 (n : nat) : binom n 1 = n.
Proof.
  induction n as [|n IH]; [reflexivity|].
  change (binom (S n) 1) with (binom n 0 + binom n 1).
  rewrite IH. destruct n; reflexivity.
Qed.

Lemma grade_start_1 (alg : algebra) : grade_start alg 1 = 1.
Proof. unfold grade_start, subspaces. simpl. destruct (alg_dim alg); reflexivity. Qed.

Lemma mvlinear_forward_shape (alg : algebra) (l : mvlinear) (t : tensor) (b m : nat)
    (rest : list nat) :
  shape t = b :: m :: rest -> m = mv_in l -> rest <> [] -> last rest 0 = mv_dim alg ->
  exists out, mvlinear_forward alg l t = Some out /\ shape out = b :: mv_out l :: rest.
Proof.
  intros Hs Hm Hr Hl. unfold mvlinear_forward. rewrite Hs, Hm, Nat.eqb_refl, Hl, Nat.eqb_refl.
  destruct rest as [|x rest]; [congruence|]. cbn [length Nat.eqb negb andb].
  eexists. split; reflexivity.
Qed.

Lemma mvlinear_forward_rejects (alg : algebra) (l : mvlinear) (t : tensor) :
  nth 1 (shape t) 0 <> mv_in l -> mvlinear_forward alg l t = None.
Proof.
  intros H. unfold mvlinear_forward.
  destruct (shape t) as [|b [|m rest]]; try reflexivity. cbn [nth] in H.
  apply Nat.eqb_neq in H. rewrite H. reflexivity.
Qed.

Lemma cgeblock_shape (alg : algebra) (mods : cge_modules) (i fi fo b : nat) (t : tensor) :
  preserves_mv_shape alg (mvrelu mods) -> preserves_mv_shape alg (steerable_gp mods) ->
  preserves_mv_shape alg (mvlayernorm mods) ->
  shape t = [b; fi; mv_dim alg] ->
  exists out, cgeblock_forward alg mods i fi fo t = Some out /\ shape out = [b; fo; mv_dim alg].
Proof.
  intros H1 H2 H3 Hs. unfold cgeblock_forward.
  destruct (mvlinear_forward_shape alg (mk_mvlinear fi fo (blk_w mods i) (blk_b mods i)) t b fi
              [mv_dim alg] Hs eq_refl ltac:(discriminate) eq_refl) as (x1 & E1 & S1).
  rewrite E1. cbn [obind]. cbn [mv_out] in S1.
  destruct (H1 i fo b x1 S1) as (x2 & E2 & S2). rewrite E2. cbn [obind].
  destruct (H2 i fo b x2 S2) as (x3 & E3 & S3). rewrite E3. cbn [obind].
  exact (H3 i fo b x3 S3).
Qed.

Lemma run_blocks_app (alg : algebra) (mods : cge_modules) (l1 l2 : list (nat * nat)) :
  forall i x, run_blocks alg mods i (l1 ++ l2) x
  = let? y := run_blocks alg mods i l1 x in run_blocks alg mods (i + length l1) l2 y.
Proof.
  induction l1 as [|[fi fo] l1 IH]; intros i x; cbn [app run_blocks length].
  - cbn [obind]. rewrite Nat.add_0_r. reflexivity.
  - destruct (cgeblock_forward alg mods i fi fo x); cbn [obind]; [|reflexivity].
    rewrite IH. replace (S i + length l1) with (i + S (length l1)) by lia. reflexivity.
Qed.

Lemma run_blocks_hidden (alg : algebra) (mods : cge_modules) (h b : nat) :
  preserves_mv_shape alg (mvrelu mods) -> preserves_mv_shape alg (steerable_gp mods) ->
  preserves_mv_shape alg (mvlayernorm mods) ->
  forall k fi i t, shape t = [b; fi; mv_dim alg] ->
  exists y, run_blocks alg mods i (cgemlp_hidden k fi h) t = Some y /\
    shape y = [b; match k with 0 => fi | S _ => h end; mv_dim alg].
Proof.
  intros H1 H2 H3 k. induction k as [|k IH]; intros fi i t Hs; cbn [cgemlp_hidden run_blocks].
  - eauto.
  - destruct (cgeblock_shape alg mods i fi h b t H1 H2 H3 Hs) as (x & E & Sx).
    rewrite E. cbn [obind].
    destruct (IH h (S i) x Sx) as (y & Ey & Sy). exists y. split; [exact Ey|].
    rewrite Sy. destruct k; reflexivity.
Qed.

Lemma length_cgemlp_hidden (k fi h : nat) : length (cgemlp_hidden k fi h) = k.
Proof. revert fi. induction k as [|k IH]; intros fi; cbn; [reflexivity|]. rewrite IH. reflexivity. Qed.

Lemma cgemlp_shape (alg : algebra) (mods : cge_modules)
    (in_features hidden_features out_features n_layers b : nat) (input : tensor) :
  preserves_mv_shape alg (mvrelu mods) -> preserves_mv_shape alg (steerable_gp mods) ->
  preserves_mv_shape alg (mvlayernorm mods) ->
  shape input = [b; in_features; mv_dim alg] ->
  (2 <= n_layers \/ in_features = hidden_features) ->
  exists out, cgemlp_forward alg mods in_features hidden_features out_features n_layers input
    = Some out /\ shape out = [b; out_features; mv_dim alg].
Proof.
  intros H1 H2 H3 Hs Hn. unfold cgemlp_forward, cgemlp_blocks.
  rewrite run_blocks_app.
  destruct (run_blocks_hidden alg mods hidden_features b H1 H2 H3 (n_layers - 1) in_features 0
              input Hs) as (y & Ey & Sy).
  rewrite Ey. cbn [obind run_blocks].
  assert (Sy' : shape y = [b; hidden_features; mv_dim alg]).
  { rewrite Sy. destruct (n_layers - 1) eqn:E; [|reflexivity]. destruct Hn; [lia|subst; reflexivity]. }
  destruct (cgeblock_shape alg mods (0 + length (cgemlp_hidden (n_layers - 1) in_features hidden_features))
              hidden_features out_features b y H1 H2 H3 Sy') as (z & Ez & Sz).
  rewrite Ez. cbn [obind]. exists z. split; [reflexivity|exact Sz].
Qed.

Lemma div_mod_split (i j n : nat) : j < n -> (i * n + j) / n = i /\ (i * n + j) mod n = j.
Proof.
  intros Hj. assert (n <> 0) by lia. split.
  - rewrite Nat.div_add_l by assumption. rewrite Nat.div_small by exact Hj. lia.
  - rewrite Nat.add_comm, Nat.Div0.mod_add. apply Nat.mod_small. exact Hj.
Qed.

(** Row-major order of [h.reshape(h.size(0), -1)] on a 3-D tensor. *)
Lemma flatten_batch_get (t : tensor) (bsz m d : nat) :
  shape t = [bsz; m; d] -> 0 < bsz ->
  exists f, flatten_batch t = Some f /\ shape f = [bsz; m * d] /\
    forall i j, j < m * d -> get f [i; j] = get t [i; j / d; j mod d].
Proof.
  intros Hs Hb. unfold flatten_batch. rewrite Hs.
  destruct (Nat.eqb_spec bsz 0) as [|_]; [lia|].
  eexists. split; [reflexivity|]. cbn [shape reshape_to prod_list fold_right].
  rewrite !Nat.mul_1_r. split; [reflexivity|].
  intros i j Hj. cbn [get reshape_to]. rewrite Hs.
  cbn [ravel unravel prod_list fold_right]. rewrite !Nat.mul_1_r, !Nat.add_0_r, !Nat.div_1_r.
  destruct (div_mod_split i j (m * d) Hj) as [-> ->].
  reflexivity.
Qed.

(** [x.reshape(-1, a, b)] on a 2-D tensor [[bsz, a * b]]. *)
Lemma reshape_m1_get (t : tensor) (bsz a b : nat) :
  shape t = [bsz; a * b] -> 0 < a * b ->
  exists out, reshape_m1 t a b = Some out /\ shape out = [bsz; a; b] /\
    forall i p c, p < a -> c < b -> get out [i; p; c] = get t [i; p * b + c].
Proof.
  intros Hs Hab. unfold reshape_m1. rewrite Hs. cbn [prod_list fold_right].
  rewrite Nat.mul_1_r.
  destruct (Nat.eqb_spec (a * b) 0) as [|_]; [lia|].
  rewrite Nat.Div0.mod_mul, Nat.eqb_refl, Nat.div_mul by lia.
  eexists. split; [reflexivity|]. split; [reflexivity|].
  intros i p c Hp Hc. cbn [get reshape_to]. rewrite Hs.
  cbn [ravel unravel prod_list fold_right]. rewrite !Nat.mul_1_r, !Nat.add_0_r, !Nat.div_1_r.
  assert (Hpc : p * b + c < a * b) by nia.
  destruct (div_mod_split i (p * b + c) (a * b) Hpc) as [-> ->].
  reflexivity.
Qed.
(** [InvariantCGENN.forward] with its [CGEMLP] stack returns on every input
    [[bsz, in_features, 2 ** dim]] with [bsz], [in_features] and [dim]
    positive, when the [CGEBlock] modules keep the shape. *)
Lemma ic_forward_total (alg : algebra) (mods : cge_modules)
    (in_features hidden_features out_features restore_dim bsz : nat) (w b : list nat -> R)
    (input : tensor) :
  preserves_mv_shape alg (mvrelu mods) -> preserves_mv_shape alg (steerable_gp mods) ->
  preserves_mv_shape alg (mvlayernorm mods) ->
  shape input = [bsz; in_features; mv_dim alg] ->
  0 < bsz -> 0 < in_features -> 0 < alg_dim alg ->
  exists out,
    ic_forward (invariant_cgenn alg mods in_features hidden_features out_features restore_dim w b)
      input = Some out /\
    shape out = [bsz; in_features; alg_dim alg].
Proof.
  intros H1 H2 H3 Hs Hb Hin Hd.
  destruct (cgemlp_shape alg mods in_features hidden_features hidden_features 2 bsz input
              H1 H2 H3 Hs (or_introl (le_n 2))) as (h & Eh & Sh).
  destruct (flatten_batch_get h bsz hidden_features (mv_dim alg) Sh Hb) as (f & Ef & Sf & _).
  unfold ic_forward, invariant_cgenn, ic_init. cbn [cgemlp upsampling ic_in_features ic_algebra].
  rewrite Eh. cbn [obind]. rewrite Ef. cbn [obind].
  unfold linear_forward at 1. rewrite Sf. cbn [rev app lin_in lin_out lin_w lin_b].
  rewrite Nat.eqb_refl. cbn [obind app].
  lazymatch goal with
  | |- context [reshape_m1 ?x _ _] =>
      destruct (reshape_m1_get x bsz in_features (alg_dim alg) eq_refl ltac:(nia))
        as (out & Eo & So & _)
  end.
  exists out. split; [exact Eo|exact So].
Qed.


Lemma embed_grade_1_shape (alg : algebra) (x : tensor) (pre : list nat) :
  shape x = pre ++ [alg_dim alg] ->
  exists xe, embed_grade alg x 1 = Some xe /\ shape xe = pre ++ [mv_dim alg].
Proof.
  intros Hs. unfold embed_grade. rewrite Hs.
  destruct (pre ++ [alg_dim alg]) eqn:E; [destruct pre; discriminate|].
  rewrite <- E, last_last, removelast_last, binom_1, Nat.eqb_refl.
  eexists. split; reflexivity.
Qed.

(** C3. [embed_grade(x, 1)] turns a tensor whose last axis holds the [dim]
    coordinates into multivectors of [2 ** dim] blades with the coordinates in
    the grade-1 blades [1 .. dim] and zeros elsewhere; the [GaTrainer]
    pipeline applies that embedding to the backbone output before
    [InvariantCGENN] sees it; [InvariantCGENN.forward], with its [CGEMLP]
    stack, returns on every batch [[bsz, in_features, 2 ** dim]] a tensor of
    shape [[bsz, in_features, dim]], whose last axis is the algebra dimension;
    so the whole pipeline maps a backbone output of point coordinates
    [[bsz, in_features, dim]] to coordinates of the same shape.  The batch
    and point counts are positive, and the [CGEBlock] modules keep the
    shape. *)
Theorem gpd_pipeline_embeds_and_restores_dim (alg : algebra) (mods : cge_modules)
    (backbone : tensor -> option (list tensor))
    (in_features hidden_features out_features restore_dim : nat) (w b : list nat -> R) :
  preserves_mv_shape alg (mvrelu mods) -> preserves_mv_shape alg (steerable_gp mods) ->
  preserves_mv_shape alg (mvlayernorm mods) -> 0 < alg_dim alg ->
  (forall r pre, shape r = pre ++ [alg_dim alg] ->
     exists e, embed_grade alg r 1 = Some e /\ shape e = pre ++ [mv_dim alg] /\
       forall idx c, get e (idx ++ [c]) =
         if (1 <=? c) && (c <? 1 + alg_dim alg) then get r (idx ++ [c - 1]) else 0%R) /\
  (forall partial out,
     ga_forward alg backbone
       (ic_forward (invariant_cgenn alg mods in_features hidden_features out_features restore_dim w b))
       partial = Some out ->
     exists ret r x, backbone partial = Some ret /\ last_opt ret = Some r /\
       embed_grade alg r 1 = Some x /\
       ic_forward (invariant_cgenn alg mods in_features hidden_features out_features restore_dim w b)
         x = Some out) /\
  (forall x bsz, shape x = [bsz; in_features; mv_dim alg] -> 0 < bsz -> 0 < in_features ->
     exists out,
       ic_forward (invariant_cgenn alg mods in_features hidden_features out_features restore_dim w b)
         x = Some out /\ shape out = [bsz; in_features; alg_dim alg]) /\
  (forall partial ret r bsz, backbone partial = Some ret -> last_opt ret = Some r ->
     shape r = [bsz; in_features; alg_dim alg] -> 0 < bsz -> 0 < in_features ->
     exists out,
       ga_forward alg backbone
         (ic_forward (invariant_cgenn alg mods in_features hidden_features out_features restore_dim w b))
         partial = Some out /\ shape out = [bsz; in_features; alg_dim alg]).
Proof.
  intros H1 H2 H3 Hd. split; [|split; [|split]].
  - intros r pre Hs. unfold embed_grade. rewrite Hs.
    destruct (pre ++ [alg_dim alg]) eqn:E; [destruct pre; discriminate|].
    rewrite <- E, last_last, removelast_last, binom_1, grade_start_1, Nat.eqb_refl.
    eexists. split; [reflexivity|]. split; [reflexivity|].
    intros idx c. cbn [get]. rewrite last_last, removelast_last.
    destruct ((1 <=? c) && (c <? 1 + alg_dim alg)) eqn:Hc; [|reflexivity].
    destruct (Nat.eqb_spec (alg_dim alg) 1) as [H1'|]; [|reflexivity].
    apply andb_true_iff in Hc. destruct Hc as [Hc1 Hc2].
    apply Nat.leb_le in Hc1. apply Nat.ltb_lt in Hc2.
    replace (c - 1) with 0 by lia. reflexivity.
  - intros partial out H. unfold ga_forward in H.
    destruct (backbone partial) as [ret|] eqn:E1; [|discriminate]. cbn [obind] in H.
    destruct (last_opt ret) as [r|] eqn:E2; [|discriminate]. cbn [obind] in H.
    destruct (embed_grade alg r 1) as [x|] eqn:E3; [|discriminate]. cbn [obind] in H.
    exists ret, r, x. repeat split; assumption.
  - intros x bsz Hs Hb Hin.
    exact (ic_forward_total alg mods in_features hidden_features out_features restore_dim bsz w b x
             H1 H2 H3 Hs Hb Hin Hd).
  - intros partial ret r bsz E1 E2 Hs Hb Hin. unfold ga_forward. rewrite E1. cbn [obind]. rewrite E2. cbn [obind].
    destruct (embed_grade_1_shape alg r [bsz; in_features] Hs) as (x & Ex & Sx).
    rewrite Ex. cbn [obind app] in Sx |- *.
    exact (ic_forward_total alg mods in_features hidden_features out_features restore_dim bsz w b x
             H1 H2 H3 Sx Hb Hin Hd).
Qed.

Lemma gpd_pipeline_embeds_and_restores_dim_witness :
  exists out,
    ga_forward alg3 (fun t => Some [t])
      (ic_forward (invariant_cgenn alg3 cge_identity 2 4 3 16 zero_params zero_params))
      (zeros [1; 2; 3]) = Some out /\ shape out = [1; 2; alg_dim alg3].
Proof.
  apply (proj2 (proj2 (proj2 (gpd_pipeline_embeds_and_restores_dim alg3 cge_identity
           (fun t => Some [t]) 2 4 3 16 zero_params zero_params
           ltac:(intros i f b t H; exists t; split; [reflexivity|exact H])
           ltac:(intros i f b t H; exists t; split; [reflexivity|exact H])
           ltac:(intros i f b t H; exists t; split; [reflexivity|exact H])
           ltac:(cbn; lia))))
           (zeros [1; 2; 3]) [zeros [1; 2; 3]] (zeros [1; 2; 3]) 1);
    first [reflexivity | lia].
Defined.

(** ** Loss targets *)

(** C4, amended. [Trainer.train] computes its loss between the model's last
    output on the partial cloud and the dataset's [complete] cloud;
    [GaTrainer.train] computes it between the main model's output on the
    embedded backbone prediction and the backbone's last output on the
    complete cloud ([backbone(complete)[-1]]), not the dataset's cloud
    itself. *)
Theorem loss_targets (model : tensor -> option (list tensor)) (alg : algebra)
    (backbone : tensor -> option (list tensor)) (main_model : tensor -> option tensor)
    (partial complete : tensor) :
  (forall args, trainer_loss_args model partial complete = Some args ->
     snd args = complete /\
     exists output, model partial = Some output /\ last_opt output = Some (fst args)) /\
  (forall args, ga_loss_args alg backbone main_model partial complete = Some args ->
     ga_forward alg backbone main_model partial = Some (fst args) /\
     exists ret_t, backbone complete = Some ret_t /\ last_opt ret_t = Some (snd args)).
Proof.
  split.
  - intros args H. unfold trainer_loss_args in H.
    destruct (model partial) as [output|] eqn:E1; [|discriminate]. cbn [obind] in H.
    destruct (last_opt output) as [o|] eqn:E2; [|discriminate]. cbn [obind] in H.
    injection H as <-. split; [reflexivity|]. exists output. split; [reflexivity|assumption].
  - intros args H. unfold ga_loss_args in H. unfold ga_forward.
    destruct (backbone partial) as [ret|]; [|discriminate]. cbn [obind] in H |- *.
    destruct (backbone complete) as [ret_t|] eqn:E1; [|discriminate]. cbn [obind] in H.
    destruct (last_opt ret_t) as [target|] eqn:E2; [|discriminate]. cbn [obind] in H.
    destruct (last_opt ret) as [r|]; [|discriminate]. cbn [obind] in H |- *.
    destruct (embed_grade alg r 1) as [x|]; [|discriminate]. cbn [obind] in H |- *.
    destruct (main_model x) as [y|]; [|discriminate]. cbn [obind] in H.
    injection H as <-. split; [reflexivity|]. exists ret_t. split; [reflexivity|assumption].
Qed.

Lemma loss_targets_witness :
  (snd (zeros [1; 2; 3], zeros [1; 2; 3]) = zeros [1; 2; 3] /\
   exists output, Some [zeros [1; 2; 3]] = Some output /\
     last_opt output = Some (fst (zeros [1; 2; 3], zeros [1; 2; 3]))) /\
  (exists args, ga_loss_args alg3 dense_backbone (fun t => Some t) (zeros [1; 2; 3]) (zeros [1; 2; 3])
                = Some args /\
     ga_forward alg3 dense_backbone (fun t => Some t) (zeros [1; 2; 3]) = Some (fst args) /\
     exists ret_t, dense_backbone (zeros [1; 2; 3]) = Some ret_t /\ last_opt ret_t = Some (snd args)).
Proof.
  split.
  - apply (proj1 (loss_targets (fun t => Some [t]) alg3 dense_backbone (fun t => Some t)
                    (zeros [1; 2; 3]) (zeros [1; 2; 3]))).
    reflexivity.
  - eexists. split; [reflexivity|].
    apply (proj2 (loss_targets (fun t => Some [t]) alg3 dense_backbone (fun t => Some t)
                    (zeros [1; 2; 3]) (zeros [1; 2; 3]))).
    reflexivity.
Defined.

(** C4, counterexample: with a backbone whose dense output has 4 points,
    [GaTrainer.train] compares the deformed points with a 4-point target
    while the batch's [complete] cloud has 2 points: the loss target is not
    the dataset's complete cloud. *)
Lemma ga_loss_target_is_not_complete :
  exists args,
    ga_loss_args alg3 dense_backbone (fun t => Some t) (zeros [1; 2; 3]) (zeros [1; 2; 3])
      = Some args /\ snd args <> zeros [1; 2; 3].
Proof.
  eexists. split; [reflexivity|]. cbn [snd].
  intros H. apply (f_equal shape) in H. discriminate.
Qed.

(** ** Attention weights that cancel *)

Lemma sumR_mult_l (n : nat) (c : R) (f : nat -> R) :
  sumR n (fun k => c * f k)%R = (c * sumR n f)%R.
Proof. induction n as [|n IH]; simpl; [ring|]. rewrite IH. ring. Qed.

Lemma sumR_mult_r (n : nat) (f : nat -> R) (c : R) :
  sumR n (fun k => f k * c)%R = (sumR n f * c)%R.
Proof. induction n as [|n IH]; simpl; [ring|]. rewrite IH. ring. Qed.

Lemma sumR_pos (n : nat) (f : nat -> R) :
  0 < n -> (forall k, 0 < f k)%R -> (0 < sumR n f)%R.
Proof.
  intros Hn Hf. induction n as [|n IH]; [lia|].
  simpl. pose proof (Hf n) as Hfn.
  destruct n as [|n]; simpl; [lra|].
  assert (0 < sumR (S n) f)%R by (apply IH; lia). simpl in H. lra.
Qed.

Lemma softmax_weighted_sum (K P : nat) (e v : nat -> R) :
  0 < K -> (forall k, 0 < e k)%R ->
  sumR K (fun ki => sumR P (fun vi => e ki / sumR K e * v vi))%R = sumR P v.
Proof.
  intros HK He.
  assert (HZ : (0 < sumR K e)%R) by (apply sumR_pos; auto).
  transitivity (sumR K (fun ki => (e ki * / sumR K e) * sumR P v))%R.
  { apply sumR_ext. intros ki _. rewrite <- sumR_mult_l.
    apply sumR_ext. intros vi _. unfold Rdiv. ring. }
  rewrite sumR_mult_r, sumR_mult_r. field. lra.
Qed.

Lemma linear_forward_shape3 (l : linear) (t v : tensor) (a b c : nat) :
  linear_forward l t = Some v -> shape t = [a; b; c] -> shape v = [a; b; lin_out l].
Proof.
  intros H Hs. unfold linear_forward in H. rewrite Hs in H. cbn [rev app] in H.
  destruct (Nat.eqb c (lin_in l)); [|discriminate].
  injection H as <-. reflexivity.
Qed.

(** C5. Whatever scores the attention module returns, [SelfAttentionGA]
    outputs at every query position [q] the plain sum over all positions [p]
    of the value vectors [v_proj(embed_grade(x, 1))[b, p, d]]: the softmax row
    sums to one and the einsum ["bqk,bvd->bqd"] sums the two indices
    separately. *)
Theorem sa_forward_ignores_attention (l : sa_layer) (x xe v s : tensor) (B P D Q K : nat) :
  embed_grade (sa_algebra l) x 1 = Some xe -> shape xe = [B; P; D] ->
  linear_forward (v_proj l) xe = Some v ->
  ga_attention l xe = Some s -> shape s = [B; Q; K; 1] -> 0 < K ->
  exists out, sa_forward l x = Some out /\ shape out = [B; Q; lin_out (v_proj l)] /\
    forall b q d, b < B -> q < Q -> d < lin_out (v_proj l) ->
      get out [b; q; d] = sumR P (fun p => get v [b; p; d]).
Proof.
  intros Hemb Hsx Hv Hs Hss HK.
  pose proof (linear_forward_shape3 _ _ _ _ _ _ Hv Hsx) as Hsv.
  unfold sa_forward. rewrite Hemb. cbn [obind]. rewrite Hsx, Hv, Hs. cbn [obind].
  unfold einsum_bqk_bvd, softmax_last, squeeze_last. rewrite Hss, Hsv.
  cbn [rev app shape].
  pose proof (broadcast_shapes_suffix [B] []) as E. cbn [app] in E. rewrite E.
  eexists. split; [reflexivity|]. split; [reflexivity|].
  intros b q d Hb Hq Hd. cbn [get].
  rewrite !(bcast_index_in_bounds [B] [b]) by bounds.
  rewrite <- (softmax_weighted_sum K P (fun k => exp (get s [b; q; k; 0]))
                (fun p => get v [b; p; d])) by (auto using exp_pos).
  apply sumR_ext. intros ki _. apply sumR_ext. intros vi _. reflexivity.
Qed.

Lemma sa_forward_ignores_attention_witness :
  exists xe v s,
    embed_grade (sa_algebra sa_zero) (zeros [1; 2048; 3]) 1 = Some xe /\
    shape xe = [1; 2048; 8] /\
    linear_forward (v_proj sa_zero) xe = Some v /\
    ga_attention sa_zero xe = Some s /\ shape s = [1; 2048; 2048; 1] /\
    exists out, sa_forward sa_zero (zeros [1; 2048; 3]) = Some out /\
      shape out = [1; 2048; lin_out (v_proj sa_zero)] /\
      forall b q d, b < 1 -> q < 2048 -> d < lin_out (v_proj sa_zero) ->
        get out [b; q; d] = sumR 2048 (fun p => get v [b; p; d]).
Proof.
  do 3 eexists.
  split; [reflexivity|]. split; [reflexivity|]. split; [reflexivity|].
  split; [reflexivity|]. split; [reflexivity|].
  eapply sa_forward_ignores_attention.
  all: first [reflexivity | cbn; lia].
Defined.

(** ** The training loops *)

Section TrainingFacts.

Variables (St Batch SD : Type).
Variable batch_step : St -> Batch -> St * R.
Variables (model_sd opt_sd : St -> SD).
Variable scheduler : option (St -> St).

Lemma trend_get_add_same (tr : list (nat * list R)) (e : nat) (x : R) :
  trend_get (trend_add tr e x) e = trend_get tr e ++ [x].
Proof.
  induction tr as [|[k xs] tr IH]; cbn [trend_add trend_get].
  - rewrite Nat.eqb_refl. reflexivity.
  - destruct (Nat.eqb_spec k e) as [->|Hk]; cbn [trend_get].
    + rewrite Nat.eqb_refl. reflexivity.
    + apply Nat.eqb_neq in Hk. rewrite Hk. exact IH.
Qed.

Lemma trend_get_add_other (tr : list (nat * list R)) (e e' : nat) (x : R) :
  e' <> e -> trend_get (trend_add tr e x) e' = trend_get tr e'.
Proof.
  intros Hne. induction tr as [|[k xs] tr IH]; cbn [trend_add trend_get].
  - apply Nat.eqb_neq in Hne. rewrite Nat.eqb_sym, Hne. reflexivity.
  - destruct (Nat.eqb_spec k e) as [->|Hk]; cbn [trend_get].
    + apply Nat.eqb_neq in Hne. rewrite Nat.eqb_sym, Hne. reflexivity.
    + destruct (Nat.eqb k e'); [reflexivity|exact IH].
Qed.

Lemma progressive_save_app (cfg : trainer_cfg) (e st : nat) (m : St) (tr tr' : list (write SD)) :
  progressive_save model_sd opt_sd cfg e st m tr = Some tr' ->
  exists t, tr' = tr ++ t /\
    (debug cfg = false -> progressive cfg = true -> 0 < st -> st mod save_step cfg = 0 ->
     In (WriteCheckpoint (StepDir (st * (e + 1))) (mk_checkpoint e (model_sd m) (opt_sd m))) t).
Proof.
  unfold progressive_save. intros H.
  destruct (0 <? st) eqn:H0.
  - destruct (Nat.eqb (save_step cfg) 0); [discriminate|].
    destruct (Nat.eqb (st mod save_step cfg) 0 && progressive cfg && negb (debug cfg)) eqn:Hc;
      injection H as <-.
    + eexists. split; [reflexivity|]. intros. left. reflexivity.
    + exists []. split; [symmetry; apply app_nil_r|].
      intros Hd Hp _ Hm. rewrite Hd, Hp, Hm in Hc. discriminate.
  - injection H as <-. exists []. split; [symmetry; apply app_nil_r|].
    intros _ _ Hst. apply Nat.ltb_ge in H0. lia.
Qed.

Lemma progressive_save_some (cfg : trainer_cfg) (e st : nat) (m : St) (tr : list (write SD)) :
  0 < save_step cfg -> exists tr', progressive_save model_sd opt_sd cfg e st m tr = Some tr'.
Proof.
  intros H. unfold progressive_save.
  destruct (0 <? st); [|eauto].
  destruct (Nat.eqb_spec (save_step cfg) 0); [lia|].
  destruct (_ && _ && _); eauto.
Qed.

Lemma run_batches_inv (cfg : trainer_cfg) (e : nat) (bs : list Batch) :
  forall st s acc s' acc',
  run_batches batch_step model_sd opt_sd cfg e st s acc bs = Some (s', acc') -> bs <> [] ->
  exists L k tr,
    ts_step s' = Some (st + k) /\ length L = S k /\
    trend_get (ts_trend s') e = trend_get (ts_trend s) e ++ L /\
    acc' = (acc + sumL L)%R /\
    (forall e', e' <> e -> trend_get (ts_trend s') e' = trend_get (ts_trend s) e') /\
    ts_reports s' = ts_reports s /\ ts_epoch s' = ts_epoch s /\
    ts_trace s' = ts_trace s ++ tr /\
    (debug cfg = false -> progressive cfg = true ->
     forall step, st <= step < st + length bs -> 0 < step -> step mod save_step cfg = 0 ->
     exists m, In (WriteCheckpoint (StepDir (step * (e + 1)))
                     (mk_checkpoint e (model_sd m) (opt_sd m))) tr).
Proof.
  induction bs as [|b bs IH]; intros st s acc s' acc' H Hne; [congruence|].
  cbn [run_batches] in H.
  destruct (progressive_save model_sd opt_sd cfg e st (fst (batch_step (ts_model s) b))
              (ts_trace s)) as [trace|] eqn:Hp; [|discriminate].
  cbn [obind] in H.
  apply progressive_save_app in Hp. destruct Hp as [t [Ht Hsave]].
  set (x := snd (batch_step (ts_model s) b)) in *.
  set (m := fst (batch_step (ts_model s) b)) in *.
  assert (Hlast : Some (mk_tstate m (trend_add (ts_trend s) e x) trace (ts_reports s) (Some st)
                          (ts_epoch s), (acc + x)%R) = Some (s', acc') ->
                  exists L k tr,
    ts_step s' = Some (st + k) /\ length L = S k /\
    trend_get (ts_trend s') e = trend_get (ts_trend s) e ++ L /\
    acc' = (acc + sumL L)%R /\
    (forall e', e' <> e -> trend_get (ts_trend s') e' = trend_get (ts_trend s) e') /\
    ts_reports s' = ts_reports s /\ ts_epoch s' = ts_epoch s /\
    ts_trace s' = ts_trace s ++ tr /\
    (debug cfg = false -> progressive cfg = true ->
     forall step, st <= step < st + 1 -> 0 < step -> step mod save_step cfg = 0 ->
     exists m, In (WriteCheckpoint (StepDir (step * (e + 1)))
                     (mk_checkpoint e (model_sd m) (opt_sd m))) tr)).
  { intros Heq. injection Heq as <- <-.
    exists [x], 0, t. cbn [ts_step ts_trend ts_reports ts_epoch ts_trace].
    refine (conj _ (conj _ (conj _ (conj _ (conj _ (conj _ (conj _ (conj _ _)))))))).
    - rewrite Nat.add_0_r. reflexivity.
    - reflexivity.
    - apply trend_get_add_same.
    - unfold sumL. cbn [fold_right]. ring.
    - intros e' He'. apply trend_get_add_other. exact He'.
    - reflexivity.
    - reflexivity.
    - exact Ht.
    - intros Hd Hpr step Hr H0 Hm. exists m.
      assert (step = st) by lia. subst step. apply Hsave; assumption. }
  destruct (debug cfg) eqn:Hd.
  - destruct (Hlast H) as (L & k & tr & H1 & H2 & H3 & H4 & H5 & H6 & H7 & H8 & H9).
    exists L, k, tr. repeat (split; [assumption|]). intros Hdf. discriminate.
  - destruct bs as [|b' bs'].
    + cbn [run_batches] in H.
      destruct (Hlast H) as (L & k & tr & H1 & H2 & H3 & H4 & H5 & H6 & H7 & H8 & H9).
      exists L, k, tr. repeat (split; [assumption|]). exact H9.
    + apply IH in H; [|discriminate].
      destruct H as (L & k & tr & H1 & H2 & H3 & H4 & H5 & H6 & H7 & H8 & H9).
      cbn [ts_step ts_trend ts_reports ts_epoch ts_trace] in H1, H3, H5, H6, H7, H8.
      exists (x :: L), (S k), (t ++ tr).
      refine (conj _ (conj _ (conj _ (conj _ (conj _ (conj _ (conj _ (conj _ _)))))))).
      * rewrite H1. f_equal. lia.
      * cbn [length]. rewrite H2. reflexivity.
      * rewrite H3, trend_get_add_same, <- app_assoc. reflexivity.
      * rewrite H4. unfold sumL. cbn [fold_right]. ring.
      * intros e' He'. rewrite H5 by exact He'. apply trend_get_add_other. exact He'.
      * exact H6.
      * exact H7.
      * rewrite H8, Ht, app_assoc. reflexivity.
      * intros Hdf Hpr step Hr H0 Hm.
        destruct (Nat.eq_dec step st) as [->|Hst].
        -- exists m. apply in_or_app. left. apply Hsave; assumption.
        -- cbn [length] in Hr.
           destruct (H9 Hdf Hpr step ltac:(cbn [length]; lia) H0 Hm) as [m' Hin].
           exists m'. apply in_or_app. right. exact Hin.
Qed.

Lemma run_batches_some (cfg : trainer_cfg) (e : nat) (bs : list Batch) :
  0 < save_step cfg ->
  forall st s acc, exists r, run_batches batch_step model_sd opt_sd cfg e st s acc bs = Some r.
Proof.
  intros Hss. induction bs as [|b bs IH]; intros st s acc; cbn [run_batches]; [eauto|].
  destruct (progressive_save_some cfg e st (fst (batch_step (ts_model s) b)) (ts_trace s) Hss)
    as [tr Htr].
  rewrite Htr. cbn [obind]. destruct (debug cfg); eauto.
Qed.

Lemma ga_run_batches_spec (bs : list Batch) :
  forall idx m acc bidx, bs <> [] ->
  ga_run_batches batch_step idx m acc bidx bs
  = (after_batches batch_step m bs, (acc + sumL (batch_losses batch_step m bs))%R,
     Some (idx + length bs - 1)).
Proof.
  induction bs as [|b bs IH]; intros idx m acc bidx Hne; [congruence|].
  cbn [ga_run_batches after_batches batch_losses length].
  destruct bs as [|b' bs'].
  - cbn [ga_run_batches after_batches batch_losses sumL fold_right length].
    replace (idx + 1 - 1) with idx by lia. unfold sumL. cbn [fold_right].
    replace (acc + (snd (batch_step m b) + 0))%R with (acc + snd (batch_step m b))%R by ring.
    reflexivity.
  - rewrite IH by discriminate.
    replace (S idx + length (b' :: bs') - 1) with (idx + S (length (b' :: bs')) - 1) by lia.
    unfold sumL. cbn [fold_right].
    rewrite Rplus_assoc. reflexivity.
Qed.

Lemma run_epochs_reports (cfg : trainer_cfg) (batches : nat -> list Batch) :
  (forall e, batches e <> []) ->
  forall n e s s',
  run_epochs batch_step model_sd opt_sd scheduler cfg batches e n s = Some s' ->
  length (ts_reports s) = e ->
  (forall i, i < e -> nth i (ts_reports s) 0%R = mean (trend_get (ts_trend s) i)) ->
  (forall i, e <= i -> trend_get (ts_trend s) i = []) ->
  exists e', length (ts_reports s') = e' /\
    (forall i, i < e' -> nth i (ts_reports s') 0%R = mean (trend_get (ts_trend s') i)) /\
    (forall i, e' <= i -> trend_get (ts_trend s') i = []).
Proof.
  intros Hne n. induction n as [|n IH]; intros e s s' H Hl Hm Hz.
  - cbn [run_epochs] in H. injection H as <-. eauto.
  - cbn [run_epochs] in H.
    destruct (run_batches batch_step model_sd opt_sd cfg e 0
                (mk_tstate (ts_model s) (ts_trend s) (ts_trace s) (ts_reports s) (ts_step s)
                   (Some e)) 0%R (batches e)) as [[s2 acc]|] eqn:Hb; [|discriminate].
    cbn [obind fst snd] in H.
    destruct (run_batches_inv cfg e (batches e) _ _ _ _ _ Hb (Hne e))
      as (L & k & tr & H1 & H2 & H3 & H4 & H5 & H6 & H7 & _ & _).
    cbn [ts_trend ts_reports ts_epoch ts_trace ts_step] in H3, H5, H6, H7.
    rewrite H1 in H. cbn [obind] in H.
    set (x := (acc / INR (0 + k + 1))%R) in H.
    assert (Hx : x = mean (trend_get (ts_trend s2) e)).
    { unfold x, mean. rewrite H3, Hz by lia. cbn [app]. rewrite H4, H2.
      replace (0 + k + 1) with (S k) by lia. rewrite Rplus_0_l. reflexivity. }
    assert (Hinv : forall s3 : tstate St SD, ts_trend s3 = ts_trend s2 ->
                     ts_reports s3 = ts_reports s2 ++ [x] ->
      length (ts_reports s3) = S e /\
      (forall i, i < S e -> nth i (ts_reports s3) 0%R = mean (trend_get (ts_trend s3) i)) /\
      (forall i, S e <= i -> trend_get (ts_trend s3) i = [])).
    { intros s3 Ht3 Hr3. rewrite Ht3, Hr3.
      refine (conj _ (conj _ _)).
      - rewrite length_app, H6, Hl. cbn [length]. lia.
      - intros i Hi. destruct (Nat.eq_dec i e) as [->|Hie].
        + rewrite app_nth2 by (rewrite H6; lia). rewrite H6, Hl, Nat.sub_diag. exact Hx.
        + rewrite app_nth1 by (rewrite H6; lia). rewrite H6, Hm by lia.
          rewrite H5 by exact Hie. reflexivity.
      - intros i Hi. rewrite H5 by lia. apply Hz. lia. }
    destruct (debug cfg).
    + injection H as <-. exists (S e). apply Hinv; reflexivity.
    + eapply IH; [exact H| |apply Hinv; reflexivity..].
      apply Hinv; reflexivity.
Qed.

Lemma run_epochs_saves (cfg : trainer_cfg) (batches : nat -> list Batch) :
  0 < save_step cfg -> (forall e, batches e <> []) ->
  forall n e s, exists s',
  run_epochs batch_step model_sd opt_sd scheduler cfg batches e n s = Some s' /\
  (exists tr, ts_trace s' = ts_trace s ++ tr /\
     (debug cfg = false -> progressive cfg = true ->
      forall e0 step, e <= e0 < e + n -> 0 < step < length (batches e0) ->
      step mod save_step cfg = 0 ->
      exists m, In (WriteCheckpoint (StepDir (step * (e0 + 1)))
                      (mk_checkpoint e0 (model_sd m) (opt_sd m))) tr)) /\
  (0 < n -> ts_epoch s' = Some (if debug cfg then e else e + n - 1)).
Proof.
  intros Hss Hne n. induction n as [|n IH]; intros e s.
  - exists s. split; [reflexivity|]. split; [|intros; lia].
    exists []. split; [symmetry; apply app_nil_r|intros; lia].
  - cbn [run_epochs].
    destruct (run_batches_some cfg e (batches e) Hss 0
                (mk_tstate (ts_model s) (ts_trend s) (ts_trace s) (ts_reports s) (ts_step s)
                   (Some e)) 0%R) as [[s2 acc] Hb].
    rewrite Hb. cbn [obind fst snd].
    destruct (run_batches_inv cfg e (batches e) _ _ _ _ _ Hb (Hne e))
      as (L & k & tr & H1 & _ & _ & _ & _ & _ & H7 & H8 & H9).
    cbn [ts_epoch ts_trace] in H7, H8.
    rewrite H1. cbn [obind].
    destruct (debug cfg) eqn:Hd.
    + eexists. split; [reflexivity|]. cbn [ts_trace ts_epoch]. split.
      * exists tr. split; [exact H8|]. intros Hdf. discriminate.
      * intros _. exact H7.
    + edestruct (IH (S e)) as (s' & Hr & (tr' & Htr' & Hsv') & He').
      exists s'. split; [exact Hr|]. cbn [ts_trace ts_epoch] in Htr'. split.
      * exists (tr ++ tr'). split; [rewrite Htr', H8, app_assoc; reflexivity|].
        intros Hdf Hp e0 step He0 Hst Hm.
        destruct (Nat.eq_dec e0 e) as [->|Hee].
        -- destruct (H9 eq_refl Hp step ltac:(lia) ltac:(lia) Hm) as [m Hin].
           exists m. apply in_or_app. left. exact Hin.
        -- destruct (Hsv' eq_refl Hp e0 step ltac:(lia) Hst Hm) as [m Hin].
           exists m. apply in_or_app. right. exact Hin.
      * intros _. destruct n as [|n'].
        -- cbn [run_epochs] in Hr. injection Hr as <-. cbn [ts_epoch]. rewrite H7.
           f_equal. lia.
        -- rewrite He' by lia. f_equal. lia.
Qed.

Lemma trend_add_keys_indep (tr : list (nat * list R)) (e : nat) (x y : R) :
  map fst (trend_add tr e x) = map fst (trend_add tr e y).
Proof.
  induction tr as [|[k xs] tr IH]; cbn [trend_add map fst]; [reflexivity|].
  destruct (Nat.eqb k e); cbn [map fst]; [reflexivity|]. rewrite IH. reflexivity.
Qed.

Lemma trend_add_keys_in (tr : list (nat * list R)) (e : nat) (x : R) :
  In e (map fst tr) -> map fst (trend_add tr e x) = map fst tr.
Proof.
  induction tr as [|[k xs] tr IH]; cbn [trend_add map fst In]; [contradiction|].
  intros H. destruct (Nat.eqb_spec k e) as [->|Hk]; cbn [map fst]; [reflexivity|].
  destruct H as [H|H]; [congruence|]. rewrite IH by exact H. reflexivity.
Qed.

Lemma trend_add_keys_new (tr : list (nat * list R)) (e : nat) (x : R) :
  ~ In e (map fst tr) -> map fst (trend_add tr e x) = map fst tr ++ [e].
Proof.
  induction tr as [|[k xs] tr IH]; cbn [trend_add map fst In app]; [reflexivity|].
  intros H. destruct (Nat.eqb_spec k e) as [->|Hk]; [tauto|].
  cbn [map fst]. rewrite IH by tauto. reflexivity.
Qed.

Lemma trend_add_in (tr : list (nat * list R)) (e : nat) (x : R) :
  In e (map fst (trend_add tr e x)).
Proof.
  induction tr as [|[k xs] tr IH]; cbn [trend_add map fst In]; [left; reflexivity|].
  destruct (Nat.eqb_spec k e) as [->|Hk]; cbn [map fst In]; [left; reflexivity|right; exact IH].
Qed.

Lemma trend_get_notin (tr : list (nat * list R)) (e : nat) :
  ~ In e (map fst tr) -> trend_get tr e = [].
Proof.
  induction tr as [|[k xs] tr IH]; cbn [trend_get map fst In]; [reflexivity|].
  intros H. destruct (Nat.eqb_spec k e) as [->|Hk]; [tauto|]. apply IH. tauto.
Qed.

Lemma run_batches_keys (cfg : trainer_cfg) (e : nat) (bs : list Batch) :
  forall st s acc s' acc',
  run_batches batch_step model_sd opt_sd cfg e st s acc bs = Some (s', acc') -> bs <> [] ->
  map fst (ts_trend s') = map fst (trend_add (ts_trend s) e 0%R).
Proof.
  induction bs as [|b bs IH]; intros st s acc s' acc' H Hne; [congruence|].
  cbn [run_batches] in H.
  destruct (progressive_save model_sd opt_sd cfg e st (fst (batch_step (ts_model s) b))
              (ts_trace s)) as [tr|]; [|discriminate].
  cbn [obind] in H.
  set (tr1 := trend_add (ts_trend s) e (snd (batch_step (ts_model s) b))) in H.
  assert (Hk : map fst tr1 = map fst (trend_add (ts_trend s) e 0%R))
    by apply trend_add_keys_indep.
  destruct (debug cfg).
  - injection H as <- _. exact Hk.
  - destruct bs as [|b' bs'].
    + cbn [run_batches] in H. injection H as <- _. exact Hk.
    + rewrite (IH _ _ _ _ _ H ltac:(discriminate)). cbn [ts_trend].
      rewrite trend_add_keys_in by apply trend_add_in. exact Hk.
Qed.

Lemma run_batches_last_step (cfg : trainer_cfg) (e : nat) (bs : list Batch) :
  forall st s acc s' acc',
  run_batches batch_step model_sd opt_sd cfg e st s acc bs = Some (s', acc') -> bs <> [] ->
  ts_step s' = Some (if debug cfg then st else st + length bs - 1).
Proof.
  induction bs as [|b bs IH]; intros st s acc s' acc' H Hne; [congruence|].
  cbn [run_batches] in H.
  destruct (progressive_save model_sd opt_sd cfg e st _ (ts_trace s)) as [tr|]; [|discriminate].
  cbn [obind] in H.
  destruct (debug cfg) eqn:Hd.
  - injection H as <- _. reflexivity.
  - destruct bs as [|b' bs'].
    + cbn [run_batches] in H. injection H as <- _. cbn [ts_step length]. f_equal. lia.
    + rewrite (IH _ _ _ _ _ H ltac:(discriminate)). rewrite ?Hd. cbn [length]. f_equal. lia.
Qed.

Lemma run_epochs_trend (cfg : trainer_cfg) (batches : nat -> list Batch) :
  (forall e, batches e <> []) ->
  forall n e s s',
  run_epochs batch_step model_sd opt_sd scheduler cfg batches e n s = Some s' ->
  map fst (ts_trend s) = seq 0 e -> length (ts_reports s) = e ->
  (forall i, i < e -> length (trend_get (ts_trend s) i)
                      = if debug cfg then 1 else length (batches i)) ->
  forall e', e' = (match n with 0 => e | S _ => if debug cfg then S e else e + n end) ->
  map fst (ts_trend s') = seq 0 e' /\ length (ts_reports s') = e' /\
  (forall i, i < e' -> length (trend_get (ts_trend s') i)
                       = if debug cfg then 1 else length (batches i)).
Proof.
  intros Hne n. induction n as [|n IH]; intros e s s' H Hk Hl Ht.
  - cbn [run_epochs] in H. injection H as <-. intros e' ->. auto.
  - cbn [run_epochs] in H.
    destruct (run_batches batch_step model_sd opt_sd cfg e 0
                (mk_tstate (ts_model s) (ts_trend s) (ts_trace s) (ts_reports s) (ts_step s)
                   (Some e)) 0%R (batches e)) as [[s2 acc]|] eqn:Hb; [|discriminate].
    cbn [obind fst snd] in H.
    destruct (run_batches_inv cfg e (batches e) _ _ _ _ _ Hb (Hne e))
      as (L & k & tr & H1 & H2 & H3 & _ & H5 & H6 & _ & _ & _).
    pose proof (run_batches_keys cfg e (batches e) _ _ _ _ _ Hb (Hne e)) as Hk2.
    pose proof (run_batches_last_step cfg e (batches e) _ _ _ _ _ Hb (Hne e)) as Hs2.
    cbn [ts_trend ts_reports] in H3, H5, H6, Hk2.
    rewrite H1 in H. cbn [obind] in H.
    assert (Hnot : ~ In e (map fst (ts_trend s))) by (rewrite Hk, in_seq; lia).
    assert (Hk3 : map fst (ts_trend s2) = seq 0 (S e)).
    { rewrite Hk2, trend_add_keys_new by exact Hnot. rewrite Hk, seq_S. reflexivity. }
    assert (Ht3 : forall i, i < S e -> length (trend_get (ts_trend s2) i)
                                       = if debug cfg then 1 else length (batches i)).
    { intros i Hi. destruct (Nat.eq_dec i e) as [->|Hie].
      - rewrite H3, trend_get_notin by exact Hnot. cbn [app]. rewrite H2.
        rewrite H1 in Hs2. injection Hs2 as Hs2.
        pose proof (Hne e) as Hb0. destruct (batches e) as [|b0 bs0]; [congruence|].
        cbn [length] in Hs2 |- *. revert Hs2. destruct (debug cfg); intros Hs2; lia.
      - rewrite H5 by exact Hie. apply Ht. lia. }
    destruct (debug cfg) eqn:Hd.
    + injection H as <-. intros e' ->. cbn [ts_trend ts_reports].
      rewrite length_app, H6, Hl. cbn [length].
      refine (conj Hk3 (conj _ _)); [lia|]. exact Ht3.
    + specialize (IH (S e) _ s' H Hk3 ltac:(cbn [ts_reports]; rewrite length_app, H6, Hl;
                                             cbn [length]; lia)).
      rewrite ?Hd in IH. specialize (IH Ht3). intros e' ->.
      apply IH. destruct n as [|n']; lia.
Qed.

(** C6. Each epoch's reported loss is the mean of that epoch's batch losses.
    In [Trainer.train] (non-empty dataloader), every reported [epoch_loss]
    is the mean of the [loss.item()] values recorded for that epoch in
    [loss_trend]; in [GaTrainer.train], each epoch appends to the reports the
    mean of the losses of its pass over the dataloader. *)
Theorem epoch_loss_is_batch_mean (cfg : trainer_cfg) (n : nat)
    (batches : nat -> list Batch) (m0 : St) :
  (forall e, batches e <> []) ->
  (forall s, trainer_train batch_step model_sd opt_sd scheduler cfg n batches m0 = Some s ->
     forall i, i < length (ts_reports s) ->
     nth i (ts_reports s) 0%R = mean (trend_get (ts_trend s) i)) /\
  (forall e k m bidx reports,
     ga_run_epochs batch_step batches e (S k) m bidx reports
     = ga_run_epochs batch_step batches (S e) k (after_batches batch_step m (batches e))
         (Some (pred (length (batches e))))
         (reports ++ [mean (batch_losses batch_step m (batches e))])).
Proof.
  intros Hne. split.
  - intros s H i Hi. unfold trainer_train in H.
    destruct (run_epochs batch_step model_sd opt_sd scheduler cfg batches 0 n
                (mk_tstate m0 [] [] [] None None)) as [s'|] eqn:Hr; [|discriminate].
    cbn [obind] in H.
    destruct (ts_epoch s'); [|discriminate]. cbn [obind] in H.
    injection H as <-. cbn [ts_reports ts_trend] in *.
    destruct (run_epochs_reports cfg batches Hne n 0 _ s' Hr eq_refl
                ltac:(intros; lia) ltac:(intros; reflexivity)) as (e' & Hl & Hm & _).
    apply Hm. lia.
  - intros e k m bidx reports. cbn [ga_run_epochs].
    rewrite (ga_run_batches_spec (batches e) 0 m 0%R bidx (Hne e)). cbn [obind].
    assert (Hlen : 0 < length (batches e))
      by (destruct (batches e) eqn:Hb; [exfalso; exact (Hne e Hb)|cbn [length]; lia]).
    replace (0 + length (batches e) - 1 + 1) with (length (batches e)) by lia.
    replace (0 + length (batches e) - 1) with (pred (length (batches e))) by lia.
    unfold mean. rewrite Rplus_0_l.
    destruct (batches e) as [|b bs] eqn:Hb; [exfalso; exact (Hne e Hb)|].
    (* the pass and its losses visit the same batches *)
    assert (Hl : length (batch_losses batch_step m (b :: bs)) = length (b :: bs)).
    { clear. revert m b. induction bs as [|b' bs IH]; intros m b; [reflexivity|].
      cbn [batch_losses length] in *. rewrite (IH (fst (batch_step m b)) b'). reflexivity. }
    rewrite Hl. reflexivity.
Qed.

Lemma run_batches_states (cfg : trainer_cfg) (e : nat) (bs : list Batch) :
  debug cfg = false ->
  forall st s acc s' acc',
  run_batches batch_step model_sd opt_sd cfg e st s acc bs = Some (s', acc') ->
  ts_model s' = after_batches batch_step (ts_model s) bs /\
  exists tr, ts_trace s' = ts_trace s ++ tr /\
    (progressive cfg = true ->
     forall j, j < length bs -> 0 < st + j -> (st + j) mod save_step cfg = 0 ->
     In (WriteCheckpoint (StepDir ((st + j) * (e + 1)))
           (mk_checkpoint e
              (model_sd (after_batches batch_step (ts_model s) (firstn (S j) bs)))
              (opt_sd (after_batches batch_step (ts_model s) (firstn (S j) bs))))) tr).
Proof.
  intros Hd. induction bs as [|b bs IH]; intros st s acc s' acc' H.
  - cbn [run_batches] in H. injection H as <- _. split; [reflexivity|].
    exists []. split; [symmetry; apply app_nil_r|]. intros _ j Hj. cbn [length] in Hj. lia.
  - cbn [run_batches] in H.
    destruct (progressive_save model_sd opt_sd cfg e st (fst (batch_step (ts_model s) b))
                (ts_trace s)) as [trace|] eqn:Hp; [|discriminate].
    cbn [obind] in H. rewrite Hd in H.
    apply progressive_save_app in Hp. destruct Hp as [t [Ht Hsave]].
    destruct (IH _ _ _ _ _ H) as (Hm & tr & Htr & Hsv).
    cbn [ts_model ts_trace] in Hm, Htr, Hsv.
    split; [exact Hm|].
    exists (t ++ tr). split; [rewrite Htr, Ht, app_assoc; reflexivity|].
    intros Hpr j Hj H0 Hmod. destruct j as [|j].
    + apply in_or_app. left. rewrite Nat.add_0_r in H0, Hmod |- *.
      cbn [firstn after_batches]. apply Hsave; assumption.
    + apply in_or_app. right. cbn [length] in Hj.
      replace (st + S j) with (S st + j) in H0, Hmod |- * by lia.
      cbn [firstn after_batches]. apply Hsv; [exact Hpr|lia|exact H0|exact Hmod].
Qed.

Lemma run_epochs_states (cfg : trainer_cfg) (batches : nat -> list Batch) :
  debug cfg = false ->
  forall n e s s',
  run_epochs batch_step model_sd opt_sd scheduler cfg batches e n s = Some s' ->
  ts_model s' = epoch_start batch_step scheduler batches e n (ts_model s) /\
  exists tr, ts_trace s' = ts_trace s ++ tr /\
    (progressive cfg = true ->
     forall e0 step, e <= e0 < e + n -> step < length (batches e0) -> 0 < step ->
     step mod save_step cfg = 0 ->
     In (WriteCheckpoint (StepDir (step * (e0 + 1)))
           (mk_checkpoint e0
              (model_sd (after_batches batch_step
                           (epoch_start batch_step scheduler batches e (e0 - e) (ts_model s))
                           (firstn (S step) (batches e0))))
              (opt_sd (after_batches batch_step
                         (epoch_start batch_step scheduler batches e (e0 - e) (ts_model s))
                         (firstn (S step) (batches e0)))))) tr).
Proof.
  intros Hd n. induction n as [|n IH]; intros e s s' H.
  - cbn [run_epochs] in H. injection H as <-. split; [reflexivity|].
    exists []. split; [symmetry; apply app_nil_r|]. intros _ e0 step He0. lia.
  - cbn [run_epochs] in H.
    destruct (run_batches batch_step model_sd opt_sd cfg e 0
                (mk_tstate (ts_model s) (ts_trend s) (ts_trace s) (ts_reports s) (ts_step s)
                   (Some e)) 0%R (batches e)) as [[s2 acc]|] eqn:Hb; [|discriminate].
    cbn [obind fst snd] in H.
    destruct (ts_step s2) as [k|]; [|discriminate]. cbn [obind] in H. rewrite Hd in H.
    destruct (run_batches_states cfg e (batches e) Hd _ _ _ _ _ Hb) as (Hm2 & tr1 & Htr1 & Hsv1).
    cbn [ts_model ts_trace] in Hm2, Htr1, Hsv1.
    destruct (IH _ _ _ H) as (Hm & tr2 & Htr2 & Hsv2).
    cbn [ts_model ts_trace] in Hm, Htr2, Hsv2.
    split; [rewrite Hm, Hm2; reflexivity|].
    exists (tr1 ++ tr2). split; [rewrite Htr2, Htr1, app_assoc; reflexivity|].
    intros Hpr e0 step He0 Hst H0 Hmod.
    destruct (Nat.eq_dec e0 e) as [->|Hee].
    + apply in_or_app. left. rewrite Nat.sub_diag. cbn [epoch_start].
      exact (Hsv1 Hpr step Hst H0 Hmod).
    + apply in_or_app. right.
      replace (e0 - e) with (S (e0 - S e)) by lia. cbn [epoch_start].
      rewrite <- Hm2. apply Hsv2; [exact Hpr|lia|exact Hst|exact H0|exact Hmod].
Qed.

(** C7, amended. With [save_step > 0], at least one epoch and non-empty
    dataloaders, [Trainer.train] returns; with progressive saves on and debug
    off it writes to [training/<step*(epoch+1)>], for every [step > 0]
    divisible by [save_step], a checkpoint of the epoch and of the model and
    optimizer state dicts of the current state: the state after the
    optimizer step of batch [step], reached from the initial state by the
    passes and scheduler steps of the earlier epochs and the first
    [step + 1] batches of this one; and it ends by writing the final
    checkpoint (last epoch index, final state, which without debug is the
    state after all the epochs) and the loss history to [training/final]. It raises
    before any final save when there are no epochs, when the first epoch's
    dataloader is empty, or when [save_step = 0] in a non-debug run whose
    first epoch has two or more batches, progressive saves on or off. *)
Theorem trainer_saves (cfg : trainer_cfg) (n : nat) (batches : nat -> list Batch) (m0 : St) :
  trainer_train batch_step model_sd opt_sd scheduler cfg 0 batches m0 = None /\
  (batches 0 = [] -> 0 < n ->
   trainer_train batch_step model_sd opt_sd scheduler cfg n batches m0 = None) /\
  (save_step cfg = 0 -> debug cfg = false -> 2 <= length (batches 0) -> 0 < n ->
   trainer_train batch_step model_sd opt_sd scheduler cfg n batches m0 = None) /\
  (0 < save_step cfg -> 0 < n -> (forall e, batches e <> []) ->
   exists s, trainer_train batch_step model_sd opt_sd scheduler cfg n batches m0 = Some s /\
     (progressive cfg = true -> debug cfg = false ->
      forall e step, e < n -> 0 < step < length (batches e) -> step mod save_step cfg = 0 ->
      In (WriteCheckpoint (StepDir (step * (e + 1)))
            (mk_checkpoint e
               (model_sd (after_batches batch_step (epoch_start batch_step scheduler batches 0 e m0)
                            (firstn (S step) (batches e))))
               (opt_sd (after_batches batch_step (epoch_start batch_step scheduler batches 0 e m0)
                          (firstn (S step) (batches e))))))
         (ts_trace s)) /\
     (debug cfg = false -> ts_model s = epoch_start batch_step scheduler batches 0 n m0) /\
     exists tr, ts_trace s =
       tr ++ [WriteCheckpoint FinalDir
                (mk_checkpoint (if debug cfg then 0 else n - 1)
                   (model_sd (ts_model s)) (opt_sd (ts_model s)));
              WriteLosses FinalDir (ts_trend s)]).
Proof.
  refine (conj _ (conj _ (conj _ _))).
  - reflexivity.
  - intros Hb Hn. destruct n as [|n]; [lia|].
    unfold trainer_train. cbn [run_epochs]. rewrite Hb. reflexivity.
  - intros Hs0 Hd Hlen Hn. destruct n as [|n]; [lia|].
    destruct (batches 0) as [|b1 [|b2 bs]] eqn:Hb; cbn [length] in Hlen; [lia|lia|].
    destruct cfg as [d p ss]. cbn [save_step debug] in Hs0, Hd. subst d ss.
    unfold trainer_train. cbn [run_epochs]. rewrite Hb. reflexivity.
  - intros Hss Hn Hne.
    destruct (run_epochs_saves cfg batches Hss Hne n 0 (mk_tstate m0 [] [] [] None None))
      as (s' & Hr & (tr & Htr & Hsv) & He).
    specialize (He Hn).
    unfold trainer_train. rewrite Hr. cbn [obind]. rewrite He. cbn [obind].
    eexists. split; [reflexivity|]. cbn [ts_trace ts_model ts_trend].
    refine (conj _ (conj _ _)).
    + intros Hp Hd e step He' Hst Hm.
      destruct (run_epochs_states cfg batches Hd n 0 _ s' Hr) as (_ & tr' & Htr' & Hsv').
      apply in_or_app. left. rewrite Htr'. cbn [ts_trace ts_model app] in Htr' |- *.
      specialize (Hsv' Hp e step ltac:(lia) ltac:(lia) ltac:(lia) Hm).
      rewrite Nat.sub_0_r in Hsv'. exact Hsv'.
    + intros Hd. destruct (run_epochs_states cfg batches Hd n 0 _ s' Hr) as (Hm & _).
      exact Hm.
    + exists (ts_trace s'). reflexivity.
Qed.

(** ** Further properties of the training loops *)

(** The loss history of [Trainer.train] (its [loss_trend], written to
    [training/final/train_losses.json]): with non-empty dataloaders, a
    finished run has one key per epoch run, in epoch order, and one reported
    epoch loss per epoch; each key holds one loss per batch of its epoch.  In
    debug mode only epoch 0 is run and only its first batch. *)
Theorem trainer_loss_history (cfg : trainer_cfg) (n : nat) (batches : nat -> list Batch)
    (m0 : St) (s : tstate St SD) :
  (forall e, batches e <> []) ->
  trainer_train batch_step model_sd opt_sd scheduler cfg n batches m0 = Some s ->
  map fst (ts_trend s) = seq 0 (if debug cfg then 1 else n) /\
  length (ts_reports s) = (if debug cfg then 1 else n) /\
  (forall e, e < (if debug cfg then 1 else n) ->
     length (trend_get (ts_trend s) e) = if debug cfg then 1 else length (batches e)) /\
  In (WriteLosses FinalDir (ts_trend s)) (ts_trace s).
Proof.
  intros Hne H. unfold trainer_train in H.
  destruct (run_epochs batch_step model_sd opt_sd scheduler cfg batches 0 n
              (mk_tstate m0 [] [] [] None None)) as [s'|] eqn:Hr; [|discriminate].
  cbn [obind] in H.
  destruct n as [|n'].
  - cbn [run_epochs] in Hr. injection Hr as <-. discriminate.
  - destruct (ts_epoch s'); [|discriminate]. cbn [obind] in H. injection H as <-.
    cbn [ts_trend ts_reports ts_trace].
    destruct (run_epochs_trend cfg batches Hne (S n') 0 _ s' Hr eq_refl eq_refl
                ltac:(intros; lia) (if debug cfg then 1 else S n')
                ltac:(destruct (debug cfg); reflexivity)) as (H1 & H2 & H3).
    refine (conj H1 (conj H2 (conj H3 _))).
    apply in_or_app. right. right. left. reflexivity.
Qed.

(** The directory of a progressive checkpoint, [training/<step*(epoch+1)>],
    does not tell epochs apart: with progressive saves on, debug off,
    [save_step > 0], at least two epochs and more than [2 * save_step]
    batches per epoch, [Trainer.train] writes a checkpoint of epoch 0 (at
    step [2 * save_step]) and a checkpoint of epoch 1 (at step [save_step])
    to the same directory [training/<2 * save_step>]. *)
Theorem progressive_save_dirs_collide (cfg : trainer_cfg) (n : nat)
    (batches : nat -> list Batch) (m0 : St) :
  progressive cfg = true -> debug cfg = false -> 0 < save_step cfg -> 2 <= n ->
  (forall e, 2 * save_step cfg < length (batches e)) ->
  exists s m1 m2,
    trainer_train batch_step model_sd opt_sd scheduler cfg n batches m0 = Some s /\
    In (WriteCheckpoint (StepDir (2 * save_step cfg)) (mk_checkpoint 0 (model_sd m1) (opt_sd m1)))
       (ts_trace s) /\
    In (WriteCheckpoint (StepDir (2 * save_step cfg)) (mk_checkpoint 1 (model_sd m2) (opt_sd m2)))
       (ts_trace s).
Proof.
  intros Hp Hd Hss Hn Hlen.
  assert (Hne : forall e, batches e <> []).
  { intros e He. specialize (Hlen e). rewrite He in Hlen. cbn [length] in Hlen. lia. }
  destruct (run_epochs_saves cfg batches Hss Hne n 0 (mk_tstate m0 [] [] [] None None))
    as (s' & Hr & (tr & Htr & Hsv) & He).
  rewrite Hd in He. specialize (He ltac:(lia)).
  destruct (Hsv Hd Hp 0 (2 * save_step cfg) ltac:(lia) ltac:(split; [lia|apply Hlen])
              ltac:(apply Nat.Div0.mod_mul)) as [m1 Hin1].
  destruct (Hsv Hd Hp 1 (save_step cfg) ltac:(lia)
              ltac:(split; [lia|specialize (Hlen 1); lia])
              ltac:(apply Nat.Div0.mod_same)) as [m2 Hin2].
  exists (mk_tstate (ts_model s') (ts_trend s')
            (ts_trace s' ++ [WriteCheckpoint FinalDir
                               (mk_checkpoint (n - 1) (model_sd (ts_model s'))
                                  (opt_sd (ts_model s')));
                             WriteLosses FinalDir (ts_trend s')])
            (ts_reports s') (ts_step s') (ts_epoch s')), m1, m2.
  unfold trainer_train. rewrite Hr. cbn [obind]. rewrite He. cbn [obind].
  replace (0 + n - 1) with (n - 1) by lia.
  split; [reflexivity|]. cbn [ts_trace]. rewrite Htr.
  replace (2 * save_step cfg * (0 + 1)) with (2 * save_step cfg) in Hin1 by lia.
  replace (save_step cfg * (1 + 1)) with (2 * save_step cfg) in Hin2 by lia.
  split; apply in_or_app; left; apply in_or_app; right; assumption.
Qed.

(** [GaTrainer.train]: with non-empty dataloaders it reports one loss per
    epoch; it raises when there is an epoch and the first epoch's dataloader
    is empty ([batch_idx] unbound); a later empty dataloader raises nothing
    and reports [0] for its epoch, [batch_idx] keeping its previous value. *)
Theorem ga_train_reports (n : nat) (batches : nat -> list Batch) (m0 : St) :
  ((forall e, batches e <> []) ->
   exists reports, ga_train batch_step n batches m0 = Some reports /\ length reports = n) /\
  (batches 0 = [] -> 0 < n -> ga_train batch_step n batches m0 = None) /\
  (forall e k m i reports, batches e = [] ->
     ga_run_epochs batch_step batches e (S k) m (Some i) reports
     = ga_run_epochs batch_step batches (S e) k m (Some i) (reports ++ [0%R])).
Proof.
  refine (conj _ (conj _ _)).
  - intros Hne. unfold ga_train.
    assert (G : forall k e m bidx reports, exists r,
               ga_run_epochs batch_step batches e k m bidx reports = Some r /\
               length r = length reports + k).
    { induction k as [|k IH]; intros e m bidx reports.
      - exists reports. split; [reflexivity|lia].
      - cbn [ga_run_epochs].
        rewrite (ga_run_batches_spec (batches e) 0 m 0%R bidx (Hne e)). cbn [obind].
        destruct (IH (S e) (after_batches batch_step m (batches e))
                    (Some (0 + length (batches e) - 1))
                    (reports ++ [((0 + sumL (batch_losses batch_step m (batches e)))
                                  / INR (0 + length (batches e) - 1 + 1))%R]))
          as (r & Er & Lr).
        exists r. split; [exact Er|]. rewrite Lr, length_app. cbn [length]. lia. }
    destruct (G n 0 m0 None []) as (r & Er & Lr). exists r. split; [exact Er|exact Lr].
  - intros Hb Hn. destruct n as [|n]; [lia|]. unfold ga_train. cbn [ga_run_epochs].
    rewrite Hb. reflexivity.
  - intros e k m i reports Hb. cbn [ga_run_epochs]. rewrite Hb. cbn [ga_run_batches obind].
    unfold Rdiv. rewrite Rmult_0_l. reflexivity.
Qed.

End TrainingFacts.

Lemma epoch_loss_is_batch_mean_witness :
  (forall e, toy_batches e <> []) /\
  (exists s,
     trainer_train toy_step (fun m => m) (fun m => m) None toy_cfg 2 toy_batches 0 = Some s /\
     forall i, i < length (ts_reports s) ->
     nth i (ts_reports s) 0%R = mean (trend_get (ts_trend s) i)) /\
  ga_run_epochs toy_step toy_batches 0 1 0 None []
  = ga_run_epochs toy_step toy_batches 1 0 (after_batches toy_step 0 (toy_batches 0))
      (Some (pred (length (toy_batches 0))))
      ([] ++ [mean (batch_losses toy_step 0 (toy_batches 0))]).
Proof.
  assert (Hne : forall e, toy_batches e <> []) by (intros e; discriminate).
  split; [exact Hne|]. split.
  - destruct (trainer_train toy_step (fun m => m) (fun m => m) None toy_cfg 2 toy_batches 0)
      as [s|] eqn:E; [|vm_compute in E; discriminate].
    exists s. split; [reflexivity|].
    exact (proj1 (epoch_loss_is_batch_mean nat R nat toy_step (fun m => m) (fun m => m) None
                    toy_cfg 2 toy_batches 0 Hne) s E).
  - apply (proj2 (epoch_loss_is_batch_mean nat R nat toy_step (fun m => m) (fun m => m) None
                    toy_cfg 2 toy_batches 0 Hne)).
Defined.

Lemma trainer_saves_witness :
  trainer_train toy_step (fun m => m) (fun m => m) None toy_cfg 0 toy_batches 0 = None /\
  (trainer_train toy_step (fun m => m) (fun m => m) None toy_cfg 1 (fun _ => []) 0 = None) /\
  (trainer_train toy_step (fun m => m) (fun m => m) None (mk_trainer_cfg false false 0) 1
     toy_batches 0 = None) /\
  (exists s,
     trainer_train toy_step (fun m => m) (fun m => m) None toy_cfg 2 toy_batches 0 = Some s /\
     In (WriteCheckpoint (StepDir 2) (mk_checkpoint 0 3 3)) (ts_trace s) /\
     In (WriteCheckpoint (StepDir 4) (mk_checkpoint 1 6 6)) (ts_trace s) /\
     ts_model s = 6 /\
     exists tr, ts_trace s =
       tr ++ [WriteCheckpoint FinalDir (mk_checkpoint 1 6 6);
              WriteLosses FinalDir (ts_trend s)]).
Proof.
  refine (conj _ (conj _ (conj _ _))).
  - apply (proj1 (trainer_saves nat R nat toy_step (fun m => m) (fun m => m) None
                    toy_cfg 2 toy_batches 0)).
  - apply (proj1 (proj2 (trainer_saves nat R nat toy_step (fun m => m) (fun m => m) None
                           toy_cfg 1 (fun _ => []) 0))); [reflexivity|lia].
  - apply (proj1 (proj2 (proj2 (trainer_saves nat R nat toy_step (fun m => m) (fun m => m) None
                                  (mk_trainer_cfg false false 0) 1 toy_batches 0))));
      [reflexivity|reflexivity|cbn; lia|lia].
  - destruct (proj2 (proj2 (proj2 (trainer_saves nat R nat toy_step (fun m => m) (fun m => m)
                                     None toy_cfg 2 toy_batches 0))))
      as (s & Hs & Hsave & Hfinal).
    + cbn. lia.
    + lia.
    + intros e. discriminate.
    + destruct Hfinal as (Hm & Hfinal). specialize (Hm eq_refl).
      exists s. refine (conj Hs (conj _ (conj _ (conj Hm _)))).
      * exact (Hsave eq_refl eq_refl 0 2 ltac:(lia) ltac:(cbn; lia) eq_refl).
      * exact (Hsave eq_refl eq_refl 1 2 ltac:(lia) ltac:(cbn; lia) eq_refl).
      * rewrite Hm in Hfinal. exact Hfinal.
Defined.

(** C7, counterexample: the final checkpoint and loss history are not always
    written. With no epochs [epoch] is unbound at the final save (NameError);
    with [save_step = 0] and progressive saves off, [step % self.save_step]
    is still evaluated at the second batch (ZeroDivisionError). *)
Lemma trainer_final_save_can_fail :
  trainer_train toy_step (fun m => m) (fun m => m) None toy_cfg 0 toy_batches 0 = None /\
  trainer_train toy_step (fun m => m) (fun m => m) None (mk_trainer_cfg false false 0) 1
    toy_batches 0 = None.
Proof. split; reflexivity. Qed.

(** * Further properties of the models *)

(** ** [CGEMLP] and [InvariantCGENN] *)

(** [CGEMLP(algebra, in_features, hidden_features, out_features, n_layers)]
    has [max(1, n_layers)] blocks, and when its [MVReLU],
    [SteerableGeometricProductLayer] and [MVLayerNorm] keep the shape
    [[batch, features, 2 ** dim]], it maps every input [[b, in_features,
    2 ** dim]] to [[b, out_features, 2 ** dim]], provided [n_layers >= 2]
    or [in_features = hidden_features]. *)
Theorem cgemlp_forward_shape (alg : algebra) (mods : cge_modules)
    (in_features hidden_features out_features n_layers b : nat) (input : tensor) :
  preserves_mv_shape alg (mvrelu mods) -> preserves_mv_shape alg (steerable_gp mods) ->
  preserves_mv_shape alg (mvlayernorm mods) ->
  shape input = [b; in_features; mv_dim alg] ->
  (2 <= n_layers \/ in_features = hidden_features) ->
  exists out, cgemlp_forward alg mods in_features hidden_features out_features n_layers input
    = Some out /\ shape out = [b; out_features; mv_dim alg] /\
    length (cgemlp_blocks in_features hidden_features out_features n_layers) = max 1 n_layers.
Proof.
  intros H1 H2 H3 Hs Hn.
  destruct (cgemlp_shape alg mods in_features hidden_features out_features n_layers b input
              H1 H2 H3 Hs Hn) as (out & E & So).
  exists out. split; [exact E|]. split; [exact So|].
  unfold cgemlp_blocks. rewrite length_app, length_cgemlp_hidden. cbn [length]. lia.
Qed.

(** The first block of [CGEMLP] expects [in_features] input features when
    [n_layers >= 2], but [hidden_features] when [n_layers <= 1] (the loop
    appends no block and [in_features] is not used): any input whose axis 1
    has another size is rejected by its [MVLinear]. *)
Theorem cgemlp_first_block_features (alg : algebra) (mods : cge_modules)
    (in_features hidden_features out_features n_layers : nat) (input : tensor) :
  nth 1 (shape input) 0 <> (if 2 <=? n_layers then in_features else hidden_features) ->
  cgemlp_forward alg mods in_features hidden_features out_features n_layers input = None.
Proof.
  intros H. unfold cgemlp_forward, cgemlp_blocks.
  destruct (Nat.leb_spec 2 n_layers) as [Hn|Hn].
  - destruct (n_layers - 1) as [|k] eqn:E; [lia|]. cbn [cgemlp_hidden app run_blocks].
    unfold cgeblock_forward. rewrite mvlinear_forward_rejects by exact H. reflexivity.
  - replace (n_layers - 1) with 0 by lia. cbn [cgemlp_hidden app run_blocks].
    unfold cgeblock_forward. rewrite mvlinear_forward_rejects by exact H. reflexivity.
Qed.

(** [InvariantCGENN.forward] on an input [[bsz, in_features, 2 ** dim]]
    ([bsz], [in_features] and [dim] positive), its [CGEBlock] modules keeping
    the shape: the [CGEMLP] stack gives [h] of shape [[bsz, hidden, 2 ** dim]],
    and the output has shape [[bsz, in_features, dim]]; entry [[i, p, c]] is
    output [p * dim + c] of the [upsampling] linear layer applied to row [i]
    of [h] flattened in row-major order (entry [j] of the flattened row
    being [h[i, j / 2 ** dim, j mod 2 ** dim]]). *)
Theorem invariant_cgenn_forward (alg : algebra) (mods : cge_modules)
    (in_features hidden_features out_features restore_dim bsz : nat) (w b : list nat -> R)
    (input : tensor) :
  preserves_mv_shape alg (mvrelu mods) -> preserves_mv_shape alg (steerable_gp mods) ->
  preserves_mv_shape alg (mvlayernorm mods) ->
  shape input = [bsz; in_features; mv_dim alg] ->
  0 < bsz -> 0 < in_features -> 0 < alg_dim alg ->
  exists h out,
    cgemlp_forward alg mods in_features hidden_features hidden_features 2 input = Some h /\
    shape h = [bsz; hidden_features; mv_dim alg] /\
    ic_forward (invariant_cgenn alg mods in_features hidden_features out_features restore_dim w b)
      input = Some out /\
    shape out = [bsz; in_features; alg_dim alg] /\
    forall i p c, i < bsz -> p < in_features -> c < alg_dim alg ->
      get out [i; p; c] =
      (sumR (hidden_features * mv_dim alg)
         (fun j => get h [i; (j / mv_dim alg)%nat; (j mod mv_dim alg)%nat]
                  * w [(p * alg_dim alg + c)%nat; j])
       + b [(p * alg_dim alg + c)%nat])%R.
Proof.
  intros H1 H2 H3 Hs Hb Hin Hd.
  destruct (cgemlp_shape alg mods in_features hidden_features hidden_features 2 bsz input
              H1 H2 H3 Hs (or_introl (le_n 2))) as (h & Eh & Sh).
  destruct (flatten_batch_get h bsz hidden_features (mv_dim alg) Sh Hb) as (f & Ef & Sf & Gf).
  unfold ic_forward, invariant_cgenn, ic_init. cbn [cgemlp upsampling ic_in_features ic_algebra].
  rewrite Eh. cbn [obind]. rewrite Ef. cbn [obind].
  unfold linear_forward at 1. rewrite Sf. cbn [rev app lin_in lin_out lin_w lin_b].
  rewrite Nat.eqb_refl. cbn [obind].
  cbn [app].
  lazymatch goal with
  | |- context [reshape_m1 ?x _ _] =>
      destruct (reshape_m1_get x bsz in_features (alg_dim alg) eq_refl ltac:(nia))
        as (out & Eo & So & Go)
  end.
  exists h, out.
  split; [reflexivity|]. split; [exact Sh|]. split; [exact Eo|]. split; [exact So|].
  intros i p c Hi Hp Hc. rewrite Go by assumption. cbn [get removelast last app].
  f_equal. apply sumR_ext. intros j Hj. rewrite Gf by exact Hj. reflexivity.
Qed.

(** ** The attention modules *)

Lemma mvlinear_forward_some_shape (alg : algebra) (l : mvlinear) (t out : tensor) :
  mvlinear_forward alg l t = Some out ->
  exists b rest, shape t = b :: mv_in l :: rest /\ shape out = b :: mv_out l :: rest /\
    rest <> [] /\ last rest 0 = mv_dim alg.
Proof.
  intros H. unfold mvlinear_forward in H.
  destruct (shape t) as [|b [|m rest]] eqn:Hs; try discriminate.
  destruct (Nat.eqb_spec m (mv_in l)) as [->|]; [|discriminate].
  destruct rest as [|x rest']; [discriminate|]. cbn [length Nat.eqb negb andb] in H.
  destruct (Nat.eqb_spec (last (x :: rest') 0) (mv_dim alg)) as [Hl|]; [|discriminate].
  injection H as <-. exists b, (x :: rest'). repeat split; try reflexivity; [discriminate|exact Hl].
Qed.

(** The features of [NormalizationLayer] must be [2 ** dim] for
    [FullyConnectedSteerableGeometricProductLayer] to return. *)
Lemma fc_forward_rejects_features (half : R -> R) (alg : algebra) (features : nat)
    (wq bq wk bk a : list nat -> R) (input : tensor) :
  features <> mv_dim alg -> fc_forward half (fc_init alg features wq bq wk bk a) input = None.
Proof.
  intros Hf. unfold fc_forward.
  destruct (shape input) as [|x1 [|x2 [|x3 [|]]]] eqn:Hs; try reflexivity.
  cbn [fc_init q_prj k_prj normalization].
  destruct (mvlinear_forward alg (mk_mvlinear 2048 2048 wq bq) input) as [q0|] eqn:Eq;
    [|reflexivity].
  cbn [obind].
  destruct (mvlinear_forward alg (mk_mvlinear 2048 2048 wk bk) input) as [k0|]; [|reflexivity].
  cbn [obind].
  destruct (mvlinear_forward_some_shape alg _ input q0 Eq) as (b & rest & H1 & H2 & _ & H4).
  rewrite Hs in H1. cbn [mv_in mv_out] in H1, H2. injection H1 as Eb Ex2 Er. subst rest.
  cbn [last] in H4. subst x3.
  rewrite norm_forward_assert; [reflexivity|]. rewrite H2. cbn [nth_error]. congruence.
Qed.

(** [FullyConnectedSteerableGeometricProductLayer(algebra, 2 ** dim)] on an
    input [[B, 2048, 2 ** dim]]. *)
Lemma fc_forward_shape (half : R -> R) (alg : algebra) (wq bq wk bk a : list nat -> R)
    (input : tensor) (B : nat) :
  shape (cayley alg) = [mv_dim alg; mv_dim alg; mv_dim alg] ->
  shape input = [B; 2048; mv_dim alg] ->
  exists out, fc_forward half (fc_init alg (mv_dim alg) wq bq wk bk a) input = Some out /\
    shape out = [B; 2048; 2048; mv_dim alg].
Proof.
  intros Hc Hs. unfold fc_forward. rewrite Hs. cbn [fc_init q_prj k_prj normalization fc_algebra].
  destruct (mvlinear_forward_shape alg (mk_mvlinear 2048 2048 wq bq) input B 2048 [mv_dim alg]
              Hs eq_refl ltac:(discriminate) eq_refl) as (q0 & Eq0 & Sq0).
  destruct (mvlinear_forward_shape alg (mk_mvlinear 2048 2048 wk bk) input B 2048 [mv_dim alg]
              Hs eq_refl ltac:(discriminate) eq_refl) as (k0 & Ek0 & Sk0).
  rewrite Eq0, Ek0. cbn [obind]. cbn [mv_out] in Sq0, Sk0.
  destruct (norm_forward_3d_spec alg a q0 B 2048 Sq0 ltac:(unfold max_seq; lia))
    as (q & Eq & Sq & _).
  destruct (norm_forward_3d_spec alg a k0 B 2048 Sk0 ltac:(unfold max_seq; lia))
    as (k & Ek & Sk & _).
  rewrite Eq, Ek. cbn [obind].
  unfold unsqueeze. rewrite Sq, Sk. cbn [obind length Nat.leb].
  unfold fast_einsum, contiguous. cbn [shape tmap insert_at rev app].
  rewrite Hc, Nat.eqb_refl. cbn [andb rev app].
  rewrite broadcast_q_k. eexists. split; reflexivity.
Qed.

Lemma gpa_forward_shape (half : R -> R) (alg : algebra) (wq bq wk bk a watt batt : list nat -> R)
    (x : tensor) (B : nat) :
  shape (cayley alg) = [mv_dim alg; mv_dim alg; mv_dim alg] ->
  shape x = [B; 2048; mv_dim alg] ->
  exists s, gpa_forward half (fc_init alg (mv_dim alg) wq bq wk bk a)
              (mk_linear (mv_dim alg) 1 watt batt) x = Some s /\
    shape s = [B; 2048; 2048; 1].
Proof.
  intros Hc Hs. unfold gpa_forward.
  destruct (fc_forward_shape half alg wq bq wk bk a x B Hc Hs) as (o & Eo & So).
  rewrite Eo. cbn [obind]. unfold linear_forward. rewrite So. cbn [rev app lin_in lin_out].
  rewrite Nat.eqb_refl. eexists. split; reflexivity.
Qed.

(** [GeometricProductAttention(algebra, embed_dim)] raises on every input
    unless [embed_dim = 2 ** dim] (the [NormalizationLayer] of its
    geometric-product layer asserts that feature count on the projected
    multivectors); with [embed_dim = 2 ** dim] and a Cayley tensor of shape
    [[2 ** dim, 2 ** dim, 2 ** dim]], it maps every input [[B, 2048,
    2 ** dim]] to attention scores of shape [[B, 2048, 2048, 1]]. *)
Theorem gpa_scores_shape (half : R -> R) (alg : algebra) (embed_dim : nat)
    (wq bq wk bk a watt batt : list nat -> R) :
  (embed_dim <> mv_dim alg -> forall x,
     gpa_forward half (fc_init alg embed_dim wq bq wk bk a) (mk_linear embed_dim 1 watt batt) x
     = None) /\
  (shape (cayley alg) = [mv_dim alg; mv_dim alg; mv_dim alg] -> embed_dim = mv_dim alg ->
   forall x B, shape x = [B; 2048; mv_dim alg] ->
   exists s, gpa_forward half (fc_init alg embed_dim wq bq wk bk a)
               (mk_linear embed_dim 1 watt batt) x = Some s /\
     shape s = [B; 2048; 2048; 1]).
Proof.
  split.
  - intros Hne x. unfold gpa_forward. rewrite fc_forward_rejects_features by exact Hne.
    reflexivity.
  - intros Hc -> x B Hs. exact (gpa_forward_shape half alg wq bq wk bk a watt batt x B Hc Hs).
Qed.

(** [SelfAttentionGA(algebra, embed_dim)] raises on every input unless
    [embed_dim = 2 ** dim]; with [embed_dim = 2 ** dim] and a Cayley tensor
    of shape [[2 ** dim, 2 ** dim, 2 ** dim]] it maps every point batch
    [[B, 2048, dim]] to an output of shape [[B, 2048, 112]]. *)
Theorem sa_forward_shape (half : R -> R) (alg : algebra) (embed_dim : nat)
    (wv bv wq bq wk bk a watt batt : list nat -> R) :
  (embed_dim <> mv_dim alg -> forall x,
     sa_forward (sa_init half alg embed_dim wv bv wq bq wk bk a watt batt) x = None) /\
  (shape (cayley alg) = [mv_dim alg; mv_dim alg; mv_dim alg] -> embed_dim = mv_dim alg ->
   forall x B, shape x = [B; 2048; alg_dim alg] ->
   exists out, sa_forward (sa_init half alg embed_dim wv bv wq bq wk bk a watt batt) x = Some out /\
     shape out = [B; 2048; 112]).
Proof.
  split.
  - intros Hne x. unfold sa_forward. cbn [sa_init sa_algebra v_proj ga_attention].
    destruct (embed_grade alg x 1) as [xe|]; cbn [obind]; [|reflexivity].
    destruct (shape xe) as [|x1 [|x2 [|x3 [|]]]]; try reflexivity.
    destruct (linear_forward _ xe); cbn [obind]; [|reflexivity].
    unfold gpa_forward. rewrite fc_forward_rejects_features by exact Hne. reflexivity.
  - intros Hc -> x B Hs.
    destruct (embed_grade_1_shape alg x [B; 2048] Hs) as (xe & Ee & Se). cbn [app] in Se.
    unfold sa_forward. cbn [sa_init sa_algebra v_proj ga_attention].
    rewrite Ee. cbn [obind]. rewrite Se.
    destruct (gpa_forward_shape half alg wq bq wk bk a watt batt xe B Hc Se) as (s & Es & Ss).
    rewrite Es.
    unfold linear_forward at 1. rewrite Se. cbn [rev app lin_in lin_out]. rewrite Nat.eqb_refl.
    cbn [obind].
    unfold einsum_bqk_bvd, softmax_last, squeeze_last. rewrite Ss.
    cbn [rev app shape].
    pose proof (broadcast_shapes_suffix [B] []) as E. cbn [app] in E. rewrite E.
    eexists. split; reflexivity.
Qed.

Lemma cgemlp_forward_shape_witness :
  exists out, cgemlp_forward alg3 cge_identity 2 3 1 2 (zeros [1; 2; 8]) = Some out /\
    shape out = [1; 1; mv_dim alg3] /\ length (cgemlp_blocks 2 3 1 2) = max 1 2.
Proof.
  apply (cgemlp_forward_shape alg3 cge_identity 2 3 1 2 1 (zeros [1; 2; 8]));
    try (intros i f b t H; exists t; split; [reflexivity|exact H]).
  - reflexivity.
  - left. lia.
Defined.

Lemma cgemlp_first_block_features_witness :
  cgemlp_forward alg3 cge_identity 2 3 1 1 (zeros [1; 2; 8]) = None.
Proof.
  apply (cgemlp_first_block_features alg3 cge_identity 2 3 1 1 (zeros [1; 2; 8])).
  cbn. lia.
Defined.

Lemma invariant_cgenn_forward_witness :
  exists h out,
    cgemlp_forward alg3 cge_identity 2 1 1 2 (zeros [1; 2; 8]) = Some h /\
    shape h = [1; 1; mv_dim alg3] /\
    ic_forward (invariant_cgenn alg3 cge_identity 2 1 3 16 zero_params zero_params)
      (zeros [1; 2; 8]) = Some out /\
    shape out = [1; 2; alg_dim alg3] /\
    forall i p c, i < 1 -> p < 2 -> c < alg_dim alg3 ->
      get out [i; p; c] =
      (sumR (1 * mv_dim alg3)
         (fun j => get h [i; (j / mv_dim alg3)%nat; (j mod mv_dim alg3)%nat]
                   * zero_params [(p * alg_dim alg3 + c)%nat; j])
       + zero_params [(p * alg_dim alg3 + c)%nat])%R.
Proof.
  apply (invariant_cgenn_forward alg3 cge_identity 2 1 3 16 1 zero_params zero_params
           (zeros [1; 2; 8]));
    try (intros i f b t H; exists t; split; [reflexivity|exact H]).
  - reflexivity.
  - lia.
  - lia.
  - cbn. lia.
Defined.

Lemma gpa_scores_shape_witness :
  gpa_forward (fun r => r) (fc_init alg3 7 zero_params zero_params zero_params zero_params
                              zero_params)
    (mk_linear 7 1 zero_params zero_params) (zeros [1; 2048; 8]) = None /\
  exists s, gpa_forward (fun r => r) (fc_init alg3 8 zero_params zero_params zero_params
                                        zero_params zero_params)
              (mk_linear 8 1 zero_params zero_params) (zeros [1; 2048; 8]) = Some s /\
    shape s = [1; 2048; 2048; 1].
Proof.
  split.
  - apply (proj1 (gpa_scores_shape (fun r => r) alg3 7 zero_params zero_params zero_params
                    zero_params zero_params zero_params zero_params)).
    cbn. lia.
  - apply (proj2 (gpa_scores_shape (fun r => r) alg3 8 zero_params zero_params zero_params
                    zero_params zero_params zero_params zero_params)); reflexivity.
Defined.

Lemma sa_forward_shape_witness :
  sa_forward (sa_init (fun r => r) alg3 7 zero_params zero_params zero_params zero_params
                zero_params zero_params zero_params zero_params zero_params)
    (zeros [1; 2048; 3]) = None /\
  exists out, sa_forward sa_zero (zeros [1; 2048; 3]) = Some out /\ shape out = [1; 2048; 112].
Proof.
  split.
  - apply (proj1 (sa_forward_shape (fun r => r) alg3 7 zero_params zero_params zero_params
                    zero_params zero_params zero_params zero_params zero_params zero_params)).
    cbn. lia.
  - apply (proj2 (sa_forward_shape (fun r => r) alg3 8 zero_params zero_params zero_params
                    zero_params zero_params zero_params zero_params zero_params zero_params));
      reflexivity.
Defined.

(** ** [Trainer.test] *)

Lemma test_batches_spec {Batch : Type} (eval_loss : Batch -> R) (bs : list Batch) :
  forall idx step acc, bs <> [] ->
  test_batches eval_loss idx step acc bs
  = (Some (idx + length bs - 1), (acc + sumL (map eval_loss bs))%R).
Proof.
  induction bs as [|b bs IH]; intros idx step acc Hne; [congruence|].
  cbn [test_batches length map].
  destruct bs as [|b' bs'].
  - cbn [test_batches length map]. unfold sumL. cbn [fold_right].
    replace (idx + 1 - 1) with idx by lia. f_equal. f_equal. ring.
  - rewrite IH by discriminate. unfold sumL. cbn [fold_right length].
    f_equal; [f_equal; lia|ring].
Qed.

(** [Trainer.test] stores in [test_loss] the mean of the per-batch losses
    over the dataloader, and raises on an empty dataloader. *)
Theorem trainer_test_mean {Batch : Type} (eval_loss : Batch -> R) (bs : list Batch) :
  trainer_test eval_loss bs =
  match bs with [] => None | _ :: _ => Some (mean (map eval_loss bs)) end.
Proof.
  destruct bs as [|b bs']; [reflexivity|].
  unfold trainer_test. rewrite test_batches_spec by discriminate. cbn [obind].
  unfold mean. rewrite length_map. cbn [length]. rewrite Rplus_0_l.
  replace (0 + S (length bs') - 1 + 1) with (S (length bs')) by lia. reflexivity.
Qed.

(** ** Witnesses of the training-loop properties *)

Lemma trainer_loss_history_witness :
  exists s, trainer_train toy_step (fun m => m) (fun m => m) None toy_cfg 2 toy_batches 0 = Some s /\
    map fst (ts_trend s) = seq 0 (if debug toy_cfg then 1 else 2) /\
    length (ts_reports s) = (if debug toy_cfg then 1 else 2) /\
    (forall e, e < (if debug toy_cfg then 1 else 2) ->
       length (trend_get (ts_trend s) e) = if debug toy_cfg then 1 else length (toy_batches e)) /\
    In (WriteLosses FinalDir (ts_trend s)) (ts_trace s).
Proof.
  destruct (trainer_train toy_step (fun m => m) (fun m => m) None toy_cfg 2 toy_batches 0)
    as [s|] eqn:E; [|vm_compute in E; discriminate].
  exists s. split; [reflexivity|].
  apply (trainer_loss_history nat R nat toy_step (fun m => m) (fun m => m) None toy_cfg 2
           toy_batches 0 s); [intros e; discriminate|exact E].
Defined.

Lemma progressive_save_dirs_collide_witness :
  exists s m1 m2,
    trainer_train toy_step (fun m => m) (fun m => m) None toy_cfg_every_step 2 toy_batches 0
      = Some s /\
    In (WriteCheckpoint (StepDir (2 * save_step toy_cfg_every_step)) (mk_checkpoint 0 m1 m1))
       (ts_trace s) /\
    In (WriteCheckpoint (StepDir (2 * save_step toy_cfg_every_step)) (mk_checkpoint 1 m2 m2))
       (ts_trace s).
Proof.
  apply (progressive_save_dirs_collide nat R nat toy_step (fun m => m) (fun m => m) None
           toy_cfg_every_step 2 toy_batches 0).
  all: first [reflexivity | intros; cbn; lia].
Defined.

Lemma ga_train_reports_witness :
  (exists reports, ga_train toy_step 2 toy_batches 0 = Some reports /\ length reports = 2) /\
  ga_train toy_step 1 (fun _ => @nil R) 0 = None /\
  ga_run_epochs toy_step (fun e => match e with 0 => [1%R] | _ => [] end) 1 1 1 (Some 0) [1%R]
  = ga_run_epochs toy_step (fun e => match e with 0 => [1%R] | _ => [] end) 2 0 1 (Some 0)
      ([1%R] ++ [0%R]).
Proof.
  refine (conj _ (conj _ _)).
  - apply (proj1 (ga_train_reports nat R toy_step 2 toy_batches 0)). intros e. discriminate.
  - apply (proj1 (proj2 (ga_train_reports nat R toy_step 1 (fun _ => @nil R) 0)));
      [reflexivity|lia].
  - apply (proj2 (proj2 (ga_train_reports nat R toy_step 0
                           (fun e => match e with 0 => [1%R] | _ => [] end) 0))).
    reflexivity.
Defined.

(** ** [NormalizationLayer] at its default initialisation *)

Lemma sigmoid_0 : sigmoid 0 = (/ 2)%R.
Proof. unfold sigmoid. rewrite Ropp_0, exp_0. f_equal. Qed.

(** With the default [init = 0] (as in
    [FullyConnectedSteerableGeometricProductLayer]), [NormalizationLayer]
    divides every blade of grade [k] by [(n + 1) / 2 + 1e-6], [n] being the
    norm of the grade-[k] part: the same divisor at every sequence position,
    halfway between 1 and the norm. *)
Theorem norm_forward_default_init (alg : algebra) (input : tensor) (B S : nat) :
  shape input = [B; S; mv_dim alg] -> S <= max_seq ->
  exists out, norm_forward (norm_layer_init alg (mv_dim alg) 0) input = Some out /\
    shape out = [B; S; mv_dim alg] /\
    forall b p c, b < B -> p < S -> c < mv_dim alg ->
      get out [b; p; c] =
      (get input [b; p; c]
       / ((grade_norm alg (grade_of alg c)
             (grade_part alg input (mv_dim alg) [b; p] (grade_of alg c)) + 1) / 2
          + norm_eps))%R.
Proof.
  intros Hs HS. unfold norm_layer_init.
  destruct (norm_forward_3d_spec alg (fun _ => 0%R) input B S Hs HS) as (out & E & So & G).
  exists out. split; [exact E|]. split; [exact So|].
  intros b p c Hb Hp Hc. rewrite G by assumption. rewrite sigmoid_0.
  f_equal. field.
Qed.

Lemma norm_forward_default_init_witness :
  exists out, norm_forward (norm_layer_init alg3 (mv_dim alg3) 0) (zeros [1; 2; 8]) = Some out /\
    shape out = [1; 2; mv_dim alg3] /\
    forall b p c, b < 1 -> p < 2 -> c < mv_dim alg3 ->
      get out [b; p; c] =
      (get (zeros [1; 2; 8]%nat) [b; p; c]
       / ((grade_norm alg3 (grade_of alg3 c)
             (grade_part alg3 (zeros [1; 2; 8]%nat) (mv_dim alg3) [b; p] (grade_of alg3 c)) + 1) / 2
          + norm_eps))%R.
Proof.
  apply (norm_forward_default_init alg3 (zeros [1; 2; 8]) 1 2).
  - reflexivity.
  - unfold max_seq. lia.
Defined.
